(** * cli-wrapped: a verification model of [analyzer.py]

    The program reads a shell history file, folds every record of the
    target year into a dictionary of tallies ([command_data]) and prints
    a report.  The development below embeds

    - the Python built-ins the program calls ([str.split], [str.strip],
      [int], [max], [sorted], list indexing, [shlex.split], the one
      regular expression handed to [re.sub], and the calendar arithmetic
      of [datetime]),
    - the class [HistoryAnalyzer] method by method, and
    - [main],

    and then states the properties of the specification against that
    embedding.

    Conventions.  A Python [str] is a [string]; its characters are the
    code points 0..255.  A Python [int] is a [Z].  A [dict] and a
    [defaultdict] are insertion-ordered association lists, because
    [max] and [sorted] observe the iteration order.  A [set] is a
    [gset].  A call that may raise returns a [result]; printing is the
    list of lines written to standard output. *)

From Stdlib Require Import ZArith Lia List Ascii String Bool.
From stdpp Require Import base gmap strings list.

Local Open Scope string_scope.
Local Open Scope Z_scope.

(** ** Python runtime: exceptions and results *)

Module Py.

Inductive exn : Type :=
| ValueError (msg : string)
| OverflowError (msg : string)
| IndexError (msg : string)
| AttributeError (msg : string)
| FileNotFoundError (msg : string).

Inductive result (A : Type) : Type :=
| Ok (a : A)
| Raise (e : exn).

Arguments Ok {A} a.
Arguments Raise {A} e.

Definition bind {A B : Type} (r : result A) (f : A -> result B) : result B :=
  match r with
  | Ok a => f a
  | Raise e => Raise e
  end.

Definition raises {A : Type} (r : result A) : bool :=
  match r with
  | Ok _ => false
  | Raise _ => true
  end.

(** *** Characters and [str] methods *)

Definition code (c : ascii) : Z := Z.of_N (N_of_ascii c).

(** [str.isspace] on one character, for the code points below 256:
    TAB..CR, FS..US, SPACE, NEL and NBSP. *)
Definition isspace (c : ascii) : bool :=
  let n := code c in
  ((9 <=? n) && (n <=? 13)) || ((28 <=? n) && (n <=? 32))
  || (n =? 133) || (n =? 160).

Definition snoc (s : string) (c : ascii) : string := s +:+ String c "".

Definition is_empty (s : string) : bool :=
  match s with
  | EmptyString => true
  | String _ _ => false
  end.

(** [s.split()]: the maximal runs of non-whitespace characters.  [cur]
    is the run being read. *)
Fixpoint split_ws (s cur : string) : list string :=
  match s with
  | EmptyString => if is_empty cur then [] else [cur]
  | String c s' =>
      if isspace c
      then (if is_empty cur then split_ws s' "" else cur :: split_ws s' "")
      else split_ws s' (snoc cur c)
  end.

Definition str_split (s : string) : list string := split_ws s "".

(** [s.split(sep)] for a separator of one character: one more part than
    there are separators. *)
Fixpoint split_sep (sep : ascii) (s cur : string) : list string :=
  match s with
  | EmptyString => [cur]
  | String c s' =>
      if Ascii.eqb c sep
      then cur :: split_sep sep s' ""
      else split_sep sep s' (snoc cur c)
  end.

Definition str_split_on (sep : ascii) (s : string) : list string :=
  split_sep sep s "".

(** [sep.join(parts)] *)
Fixpoint str_join (sep : string) (parts : list string) : string :=
  match parts with
  | [] => ""
  | [p] => p
  | p :: rest => p +:+ sep +:+ str_join sep rest
  end.

Fixpoint lstrip (s : string) : string :=
  match s with
  | EmptyString => ""
  | String c s' => if isspace c then lstrip s' else s
  end.

Definition str_rev (s : string) : string :=
  string_of_list_ascii (rev (list_ascii_of_string s)).

Definition rstrip (s : string) : string := str_rev (lstrip (str_rev s)).

(** [s.strip()] *)
Definition str_strip (s : string) : string := rstrip (lstrip s).

(** [s.startswith(c)] for a prefix of one character. *)
Definition startswith (c : ascii) (s : string) : bool :=
  match s with
  | EmptyString => false
  | String c' _ => Ascii.eqb c' c
  end.

(** *** [int(s)] in base 10

    Surrounding whitespace is dropped, one sign is allowed, and the
    digits may be grouped by single underscores; anything else raises
    [ValueError]. *)
Definition is_digit (c : ascii) : bool := (48 <=? code c) && (code c <=? 57).

Fixpoint digits_value (s : string) (acc : Z) (after_digit : bool) : option Z :=
  match s with
  | EmptyString => if after_digit then Some acc else None
  | String c s' =>
      if is_digit c then digits_value s' (10 * acc + (code c - 48)) true
      else if Ascii.eqb c "_"
           then (if after_digit then digits_value s' acc false else None)
           else None
  end.

Definition int_error : exn := ValueError "invalid literal for int() with base 10".

Definition int (s : string) : result Z :=
  let of_digits (sign : Z) (body : string) :=
    match digits_value body 0 false with
    | Some v => Ok (sign * v)
    | None => Raise int_error
    end in
  match str_strip s with
  | String "-" body => of_digits (-1) body
  | String "+" body => of_digits 1 body
  | body => of_digits 1 body
  end.

(** *** Sequences: indexing, [max] and [sorted] *)

(** [l[i]]: a negative index counts from the end, an index out of range
    raises [IndexError]. *)
Definition getitem {A : Type} (l : list A) (i : Z) : result A :=
  let n := Z.of_nat (length l) in
  let j := if i <? 0 then i + n else i in
  if (j <? 0) || (n <=? j) then Raise (IndexError "list index out of range")
  else match nth_error l (Z.to_nat j) with
       | Some a => Ok a
       | None => Raise (IndexError "list index out of range")
       end.

(** [max(items, key=lambda x: x[1])]: the running maximum is replaced
    only by a strictly greater item, so the first maximal item wins. *)
Fixpoint max_from {K : Type} (best : K * Z) (l : list (K * Z)) : K * Z :=
  match l with
  | [] => best
  | x :: l' => if snd best <? snd x then max_from x l' else max_from best l'
  end.

Definition max_by_value {K : Type} (l : list (K * Z)) : result (K * Z) :=
  match l with
  | [] => Raise (ValueError "max() arg is an empty sequence")
  | x :: l' => Ok (max_from x l')
  end.

(** [sorted(items, key=k, reverse=True)]: descending and stable, items
    with equal keys stay in their original order. *)
Fixpoint insert_desc {A : Type} (key : A -> Z) (x : A) (l : list A) : list A :=
  match l with
  | [] => [x]
  | y :: l' => if key x <? key y then y :: insert_desc key x l' else x :: y :: l'
  end.

Fixpoint sorted_desc {A : Type} (key : A -> Z) (l : list A) : list A :=
  match l with
  | [] => []
  | x :: l' => insert_desc key x (sorted_desc key l')
  end.

(** *** [dict] as an insertion-ordered association list *)

Definition odict (K V : Type) : Type := list (K * V).

(** [d[k] = f(d[k])] on a [defaultdict] whose factory returns [dflt]:
    an existing entry is changed in place, a missing key is appended. *)
Fixpoint od_update {K V : Type} `{EqDecision K}
    (f : V -> V) (dflt : V) (k : K) (d : odict K V) : odict K V :=
  match d with
  | [] => [(k, f dflt)]
  | (k', v) :: d' =>
      if decide (k' = k) then (k', f v) :: d'
      else (k', v) :: od_update f dflt k d'
  end.

(** [d[k] += 1] on a [defaultdict(int)] *)
Definition od_incr {K : Type} `{EqDecision K} (k : K) (d : odict K Z) : odict K Z :=
  od_update (fun v => v + 1) 0 k d.

(** [d.get(k)] *)
Fixpoint od_get {K V : Type} `{EqDecision K} (k : K) (d : odict K V) : option V :=
  match d with
  | [] => None
  | (k', v) :: d' => if decide (k' = k) then Some v else od_get k d'
  end.

Definition od_keys {K V : Type} (d : odict K V) : list K := map fst d.
Definition od_values {K V : Type} (d : odict K V) : list V := map snd d.

(** [sum(d.values())] *)
Definition od_sum {K : Type} (d : odict K Z) : Z := fold_right Z.add 0 (od_values d).

End Py.

(** ** [shlex.split]

    [shlex.split(s)] runs the lexer in POSIX mode with
    [whitespace_split = True] and no comment characters, and collects
    the tokens of [read_token] until it returns [None].  The lexer's
    attribute [state] is a character in Python: a blank between tokens,
    ['a'] inside a word, the opening quote inside a quoted part, the
    escape character right after a backslash. *)

Module Shlex.
Import Py.

Definition squote : ascii := "'"%char.
Definition dquote : ascii := ascii_of_nat 34.
Definition backslash : ascii := ascii_of_nat 92.

(** [whitespace = ' \t\r\n'], [quotes], [escape], [escapedquotes] *)
Definition in_whitespace (c : ascii) : bool :=
  (code c =? 32) || (code c =? 9) || (code c =? 13) || (code c =? 10).
Definition in_quotes (c : ascii) : bool := Ascii.eqb c squote || Ascii.eqb c dquote.
Definition in_escape (c : ascii) : bool := Ascii.eqb c backslash.
Definition in_escapedquotes (c : ascii) : bool := Ascii.eqb c dquote.

Inductive lex_state : Type :=
| Blank
| Word
| Quoted (q : ascii)
| Escaped (e : ascii).

Definition no_closing_quotation : exn := ValueError "No closing quotation".
Definition no_escaped_character : exn := ValueError "No escaped character".

(** The end of one [read_token] call.  In POSIX mode an empty token
    that was never quoted is [None], which ends the iteration; any
    other token is followed by the tokens of the next calls. *)
Definition emit (token : string) (quoted : bool)
    (next : result (list string)) : result (list string) :=
  if negb quoted && is_empty token then Ok []
  else bind next (fun ts => Ok (token :: ts)).

(** The loop of [read_token], one character per step.  [token],
    [quoted] and [escapedstate] are the locals of the call in progress
    and start afresh after each [emit]; [state] survives from one call
    to the next.  With [whitespace_split] set, a character that is
    neither whitespace, quote nor escape joins the word whether or not
    it is in [wordchars], so the two branches of the source are one
    here. *)
Fixpoint lex (inp : string) (state : lex_state) (token : string)
    (quoted : bool) (escapedstate : lex_state) : result (list string) :=
  match inp with
  | EmptyString =>
      match state with
      | Blank | Word => emit token quoted (Ok [])
      | Quoted _ => Raise no_closing_quotation
      | Escaped _ => Raise no_escaped_character
      end
  | String c rest =>
      match state with
      | Blank =>
          if in_whitespace c then
            if negb (is_empty token) || quoted
            then emit token quoted (lex rest Blank "" false Blank)
            else lex rest Blank token quoted escapedstate
          else if in_escape c then lex rest (Escaped c) token quoted Word
          else if in_quotes c then lex rest (Quoted c) token quoted escapedstate
          else lex rest Word (String c "") quoted escapedstate
      | Word =>
          if in_whitespace c then
            if negb (is_empty token) || quoted
            then emit token quoted (lex rest Blank "" false Blank)
            else lex rest Blank token quoted escapedstate
          else if in_quotes c then lex rest (Quoted c) token quoted escapedstate
          else if in_escape c then lex rest (Escaped c) token quoted Word
          else lex rest Word (snoc token c) quoted escapedstate
      | Quoted q =>
          if Ascii.eqb c q then lex rest Word token true escapedstate
          else if in_escape c && in_escapedquotes q
               then lex rest (Escaped c) token true (Quoted q)
               else lex rest (Quoted q) (snoc token c) true escapedstate
      | Escaped e =>
          let keep_escape :=
            match escapedstate with
            | Quoted q => negb (Ascii.eqb c e) && negb (Ascii.eqb c q)
            | _ => false
            end in
          let token' := if keep_escape then snoc token e else token in
          lex rest escapedstate (snoc token' c) quoted escapedstate
      end
  end.

Definition split (s : string) : result (list string) := lex s Blank "" false Blank.

End Shlex.

(** ** The [re.sub] call of [_safe_split_command]

    The pattern is an alternation of two branches, one per quote
    character (single, double): the quote followed by [[^q]*] for that
    same quote [q], and the replacement is the empty string.  So the
    pattern matches a quote character and the longest run of
    characters after it that are not that same quote.  [re.sub] scans
    from the left, deletes each match and resumes right after it.
    [inside] is the quote of the match in progress, if any. *)

Module Re.
Import Py.

Fixpoint sub_quotes (s : string) (inside : option ascii) : string :=
  match s with
  | EmptyString => ""
  | String c s' =>
      match inside with
      | Some q =>
          if Ascii.eqb c q
          then (* the match ends before [c], and [c] opens the next one *)
               sub_quotes s' (Some c)
          else sub_quotes s' (Some q)
      | None =>
          if Shlex.in_quotes c then sub_quotes s' (Some c)
          else String c (sub_quotes s' None)
      end
  end.

Definition sub (s : string) : string := sub_quotes s None.

End Re.

(** ** [datetime]

    A naive [datetime] is its seven calendar fields.  The calendar
    arithmetic is the proleptic Gregorian one of the [datetime] module:
    day 1 is 0001-01-01, and [weekday()] counts from Monday = 0. *)

Module Datetime.
Import Py.

Record datetime : Type := mk_datetime {
  year : Z;
  month : Z;
  day : Z;
  hour : Z;
  minute : Z;
  second : Z;
  microsecond : Z
}.

(** [datetime.max] *)
Definition max : datetime := mk_datetime 9999 12 31 23 59 59 999999.

Definition fields (d : datetime) : list Z :=
  [year d; month d; day d; hour d; minute d; second d; microsecond d].

(** Comparison of naive datetimes is the comparison of the field tuples. *)
Fixpoint tuple_lt (a b : list Z) : bool :=
  match a, b with
  | x :: a', y :: b' =>
      if x <? y then true else if y <? x then false else tuple_lt a' b'
  | [], _ :: _ => true
  | _, [] => false
  end.

(** [a < b] *)
Definition lt (a b : datetime) : bool := tuple_lt (fields a) (fields b).

Definition is_leap (y : Z) : bool :=
  (y mod 4 =? 0) && (negb (y mod 100 =? 0) || (y mod 400 =? 0)).

Definition days_before_year (y : Z) : Z :=
  let p := y - 1 in p * 365 + p / 4 - p / 100 + p / 400.

Definition DAYS_IN_MONTH : list Z :=
  [-1; 31; 28; 31; 30; 31; 30; 31; 31; 30; 31; 30; 31].

Definition DAYS_BEFORE_MONTH : list Z :=
  [-1; 0; 31; 59; 90; 120; 151; 181; 212; 243; 273; 304; 334].

Definition table (t : list Z) (i : Z) : Z := nth (Z.to_nat i) t 0.

Definition days_before_month (y m : Z) : Z :=
  table DAYS_BEFORE_MONTH m + (if (2 <? m) && is_leap y then 1 else 0).

Definition ymd2ord (y m d : Z) : Z :=
  days_before_year y + days_before_month y m + d.

Definition toordinal (t : datetime) : Z := ymd2ord (year t) (month t) (day t).

(** [t.weekday()] *)
Definition weekday (t : datetime) : Z := (toordinal t + 6) mod 7.

(** [t.timetuple().tm_yday] *)
Definition tm_yday (t : datetime) : Z := days_before_month (year t) (month t) + day t.

(** The inverse of [ymd2ord], as [_ord2ymd] computes it. *)
Definition ord2ymd (ordinal : Z) : Z * Z * Z :=
  let n := ordinal - 1 in
  let n400 := n / 146097 in
  let n := n mod 146097 in
  let n100 := n / 36524 in
  let n := n mod 36524 in
  let n4 := n / 1461 in
  let n := n mod 1461 in
  let n1 := n / 365 in
  let n := n mod 365 in
  let y := n400 * 400 + 1 + n100 * 100 + n4 * 4 + n1 in
  if (n1 =? 4) || (n100 =? 4) then (y - 1, 12, 31)
  else
    let leapyear := (n1 =? 3) && (negb (n4 =? 24) || (n100 =? 3)) in
    let m := Z.shiftr (n + 50) 5 in
    let preceding := table DAYS_BEFORE_MONTH m + (if (2 <? m) && leapyear then 1 else 0) in
    if n <? preceding
    then
      let m' := m - 1 in
      let preceding' :=
        preceding - (table DAYS_IN_MONTH m' + (if (m' =? 2) && leapyear then 1 else 0)) in
      (y, m', n - preceding' + 1)
    else (y, m, n - preceding + 1).

(** The ordinal of 1970-01-01. *)
Definition EPOCH_ORDINAL : Z := 719163.

(** [datetime.fromtimestamp(t)] for an integer [t]: the local civil time
    of the instant [t] seconds after the epoch.  [utcoffset t] is the
    offset of the local zone at that instant, in seconds east of UTC.
    The call raises when [t] does not fit the platform's [time_t] and
    when the year falls outside 1..9999. *)
Definition fromtimestamp (utcoffset : Z -> Z) (t : Z) : result datetime :=
  if (t <? - 2 ^ 63) || (2 ^ 63 <=? t)
  then Raise (OverflowError "timestamp out of range for platform time_t")
  else
    let local := t + utcoffset t in
    let '(y, m, d) := ord2ymd (EPOCH_ORDINAL + local / 86400) in
    let s := local mod 86400 in
    if (y <? 1) || (9999 <? y) then Raise (ValueError "year is out of range")
    else Ok (mk_datetime y m d (s / 3600) (s mod 3600 / 60) (s mod 60) 0).

End Datetime.

(** ** Standard output and the environment of a run *)

Import Py.

(** One constructor per [print] call of the program, holding the
    values its format string interpolates. *)
Inductive line : Type :=
| Header (year : Z)
| TotalCommands (n : Z)
| UniqueCommands (n : Z)
| MostUsedTitle
| CommandCount (cmd : string) (count : Z)
| ActiveMonthsTitle
| MonthCount (name : string) (count : Z)
| TopInMonthsTitle
| MonthName (name : string)
| MonthCommandCount (cmd : string) (count : Z)
| MostActiveDay (name : string)
| MostActiveHour (h : Z)
| ErrorProcessing (command : string) (e : exn).

(** What the program reads from outside: the home directory that
    [os.path.expanduser] substitutes, the readable text files by path,
    the local time zone, and the successive readings of the wall clock
    ([datetime.now()], numbered from 0). *)
Record env : Type := {
  home : string;
  files : gmap string string;
  utcoffset : Z -> Z;
  clock : nat -> Datetime.datetime
}.

(** Printing code: the lines written so far and how the code ended. *)
Definition io (A : Type) : Type := list line * result A.

Definition io_ret {A : Type} (a : A) : io A := ([], Ok a).

Definition io_bind {A B : Type} (m : io A) (f : A -> io B) : io B :=
  match m with
  | (out, Ok a) => let (out', r) := f a in ((out ++ out')%list, r)
  | (out, Raise e) => (out, Raise e)
  end.

Definition print (l : line) : io unit := ([l], Ok tt).

Definition lift {A : Type} (r : result A) : io A := ([], r).

Fixpoint for_each {A : Type} (l : list A) (body : A -> io unit) : io unit :=
  match l with
  | [] => io_ret tt
  | x :: l' => io_bind (body x) (fun _ => for_each l' body)
  end.

Notation "'do' x <- m ; k" := (io_bind m (fun x => k))
  (at level 10, x name, m at level 100, k at level 200).
Notation "'do_' m ; k" := (io_bind m (fun _ => k))
  (at level 10, m at level 100, k at level 200).

(** The lines of a text file as [for line in f] yields them: each one
    keeps its newline, the last one may lack it. *)
Fixpoint lines_from (s cur : string) : list string :=
  match s with
  | EmptyString => if is_empty cur then [] else [cur]
  | String c s' =>
      if code c =? 10 then snoc cur c :: lines_from s' ""
      else lines_from s' (snoc cur c)
  end.

Definition readlines (content : string) : list string := lines_from content "".

(** [os.path.expanduser] on a path that starts with a tilde and a slash. *)
Definition expanduser (e : env) (p : string) : string :=
  match p with
  | String "~" rest => home e +:+ rest
  | _ => p
  end.

(** [os.path.exists] *)
Definition exists_ (e : env) (p : string) : bool := bool_decide (is_Some (files e !! p)).

(** ** class [HistoryAnalyzer] *)

Module HistoryAnalyzer.

Record month_data : Type := {
  count : Z;
  commands : odict string Z
}.

Record data : Type := {
  total_commands : Z;
  unique_commands : gset string;
  commands_by_month : odict Z month_data;
  commands_by_weekday : odict Z Z;
  commands_by_hour : odict Z Z;
  commands_by_day : odict Z Z;
  total_command_count : odict string Z;
  first_command : option string;
  first_command_time : Datetime.datetime
}.

Record t : Type := {
  year : Z;
  command_data : data
}.

(** A history record as the parsers yield it: [(command, timestamp)]. *)
Definition record : Type := string * Datetime.datetime.

(** A generator run to its end: the records it yields, and the
    exception that ends it if one is raised inside it. *)
Definition stream : Type := list record * option exn.

Definition yield (r : record) (s : stream) : stream := (r :: fst s, snd s).

Definition empty_month : month_data := {| count := 0; commands := [] |}.

(** [__init__]: [year or datetime.now().year] reads the clock only when
    [year] is [None] or 0.  The second component is the number of clock
    readings used. *)
Definition init (e : env) (year : option Z) : t * nat :=
  let fresh := {|
    total_commands := 0;
    unique_commands := ∅;
    commands_by_month := [];
    commands_by_weekday := [];
    commands_by_hour := [];
    commands_by_day := [];
    total_command_count := [];
    first_command := None;
    first_command_time := Datetime.max
  |} in
  let current := {| year := Datetime.year (clock e 0%nat); command_data := fresh |} in
  match year with
  | None => (current, 1%nat)
  | Some y =>
      if y =? 0 then (current, 1%nat)
      else ({| year := y; command_data := fresh |}, 0%nat)
  end.

(** [_parse_bash_history]: every line that is not blank is a command,
    stamped with the clock reading taken when it is yielded.  [k] is
    the number of the next clock reading. *)
Fixpoint _parse_bash_lines (e : env) (k : nat) (lines : list string) : stream :=
  match lines with
  | [] => ([], None)
  | line :: rest =>
      let line := str_strip line in
      if negb (is_empty line)
      then yield (line, clock e k) (_parse_bash_lines e (S k) rest)
      else _parse_bash_lines e k rest
  end.

Definition no_such_file : exn := FileNotFoundError "No such file or directory".

Definition _parse_bash_history (e : env) (k : nat) (history_file : string) : stream :=
  match files e !! history_file with
  | Some content => _parse_bash_lines e k (readlines content)
  | None => ([], Some no_such_file)
  end.

(** [_parse_zsh_history]: a line that starts with a colon and has at
    least three parts between semicolons yields a record; [int] and
    [fromtimestamp] are called outside any [try]. *)
Fixpoint _parse_zsh_lines (e : env) (lines : list string) : stream :=
  match lines with
  | [] => ([], None)
  | line :: rest =>
      if startswith ":" line then
        let parts := str_split_on ";" line in
        if 3 <=? Z.of_nat (length parts) then
          match bind (getitem parts 1) (fun field =>
                bind (int field) (fun seconds =>
                Datetime.fromtimestamp (utcoffset e) seconds)) with
          | Ok timestamp =>
              let command := str_strip (str_join ";" (drop 2 parts)) in
              yield (command, timestamp) (_parse_zsh_lines e rest)
          | Raise ex => ([], Some ex)
          end
        else _parse_zsh_lines e rest
      else _parse_zsh_lines e rest
  end.

Definition _parse_zsh_history (e : env) (k : nat) (history_file : string) : stream :=
  match files e !! history_file with
  | Some content => _parse_zsh_lines e (readlines content)
  | None => ([], Some no_such_file)
  end.

(** [getattr(self, name)] for the names [parse_shell_history] builds,
    [_parse_<shell>_history]: the class defines two such methods. *)
Definition getattr (name : string) : result (env -> nat -> string -> stream) :=
  if String.eqb name "_parse_bash_history" then Ok _parse_bash_history
  else if String.eqb name "_parse_zsh_history" then Ok _parse_zsh_history
  else Raise (AttributeError
                ("'HistoryAnalyzer' object has no attribute '" +:+ name +:+ "'")).

Definition history_files (e : env) : odict string string :=
  [ ("bash", expanduser e "~/.bash_history");
    ("zsh", expanduser e "~/.zsh_history");
    ("fish", expanduser e "~/.local/share/fish/fish_history") ].

(** [parse_shell_history]: [Raise] is an exception of the call itself,
    before the generator it returns has run at all. *)
Definition parse_shell_history (e : env) (k : nat) (shell : string) : result stream :=
  let not_found := FileNotFoundError ("History file not found for " +:+ shell) in
  match od_get shell (history_files e) with
  | None => Raise not_found
  | Some history_file =>
      if is_empty history_file || negb (exists_ e history_file)
      then Raise not_found
      else
        bind (getattr ("_parse_" +:+ shell +:+ "_history")) (fun parse_method =>
        Ok (parse_method e k history_file))
  end.

(** [_safe_split_command] *)
Definition _safe_split_command (command : string) : result (list string) :=
  match Shlex.split command with
  | Ok parts => Ok parts
  | Raise (ValueError _) => Ok (str_split (Re.sub command))
  | Raise ex => Raise ex
  end.

(** [_process_command].  [body] is the [try] block; the handler of
    [except Exception] prints the warning and returns. *)
Definition _process_command (self : t) (command : string)
    (timestamp : Datetime.datetime) : t * list line :=
  let d := command_data self in
  let body : result t :=
    bind (_safe_split_command command) (fun cmd_parts =>
    match cmd_parts with
    | [] => Ok self
    | base_command :: _ =>
        let first := Datetime.lt timestamp (first_command_time d) in
        let bump (m : month_data) :=
          {| count := count m + 1;
             commands := od_incr base_command (commands m) |} in
        Ok {| year := year self;
              command_data := {|
                total_commands := total_commands d + 1;
                unique_commands := {[ base_command ]} ∪ unique_commands d;
                total_command_count := od_incr base_command (total_command_count d);
                first_command := if first then Some command else first_command d;
                first_command_time := if first then timestamp else first_command_time d;
                commands_by_month :=
                  od_update bump empty_month (Datetime.month timestamp) (commands_by_month d);
                commands_by_weekday :=
                  od_incr (Datetime.weekday timestamp) (commands_by_weekday d);
                commands_by_hour := od_incr (Datetime.hour timestamp) (commands_by_hour d);
                commands_by_day := od_incr (Datetime.tm_yday timestamp) (commands_by_day d)
              |} |}
    end) in
  match body with
  | Ok self' => (self', [])
  | Raise ex => (self, [ErrorProcessing command ex])
  end.

(** The [for] loop of [analyze_commands] over the records yielded. *)
Fixpoint analyze_records (self : t) (records : list record) : t * list line :=
  match records with
  | [] => (self, [])
  | (command, timestamp) :: rest =>
      if negb (Datetime.year timestamp =? year self)
      then analyze_records self rest
      else
        let (self', out) := _process_command self command timestamp in
        let (self'', out') := analyze_records self' rest in
        (self'', (out ++ out')%list)
  end.

(** [analyze_commands]: the analyzer as the call leaves it, the lines
    printed, and the exception that leaves the call, if any. *)
Definition analyze_commands (self : t) (e : env) (k : nat) (shell : string)
    : t * list line * option exn :=
  match parse_shell_history e k shell with
  | Raise ex => (self, [], Some ex)
  | Ok (records, raised) =>
      let (self', out) := analyze_records self records in
      (self', out, raised)
  end.

Definition month_names : list string :=
  [ "January"; "February"; "March"; "April"; "May"; "June";
    "July"; "August"; "September"; "October"; "November"; "December" ].

Definition weekdays : list string :=
  [ "Monday"; "Tuesday"; "Wednesday"; "Thursday"; "Friday"; "Saturday"; "Sunday" ].

(** [max(d.items(), key=lambda x: x[1])[0]], the expression behind both
    the most active weekday and the most active hour. *)
Definition most_active (d : odict Z Z) : result Z :=
  bind (max_by_value d) (fun item => Ok (fst item)).

(** [generate_report] *)
Definition generate_report (self : t) : io unit :=
  let d := command_data self in
  do_ print (Header (year self));
  do_ print (TotalCommands (total_commands d));
  do_ print (UniqueCommands (Z.of_nat (size (unique_commands d))));
  do_ print MostUsedTitle;
  let top_commands := take 10 (sorted_desc snd (total_command_count d)) in
  do_ for_each top_commands (fun '(cmd, n) => print (CommandCount cmd n));
  let active_months :=
    take 3 (sorted_desc (fun x => count (snd x)) (commands_by_month d)) in
  do_ print ActiveMonthsTitle;
  do_ for_each active_months (fun '(month, m) =>
        do name <- lift (getitem month_names (month - 1));
        print (MonthCount name (count m)));
  do_ print TopInMonthsTitle;
  do_ for_each active_months (fun '(month, m) =>
        let month_top_commands := take 3 (sorted_desc snd (commands m)) in
        do name <- lift (getitem month_names (month - 1));
        do_ print (MonthName name);
        for_each month_top_commands (fun '(cmd, n) => print (MonthCommandCount cmd n)));
  do most_active_weekday <- lift (most_active (commands_by_weekday d));
  do name <- lift (getitem weekdays most_active_weekday);
  do_ print (MostActiveDay name);
  do most_active_hour <- lift (most_active (commands_by_hour d));
  print (MostActiveHour most_active_hour).

End HistoryAnalyzer.

(** ** [main]

    [year] and [shell] are the parsed arguments.  An exception that
    leaves [main] ends the process with status 1 and a traceback on
    standard error; otherwise the status is 0. *)

Record run : Type := {
  stdout : list line;
  uncaught : option exn;
  exit_status : Z
}.

Definition finish (out : list line) (raised : option exn) : run :=
  {| stdout := out;
     uncaught := raised;
     exit_status := match raised with Some _ => 1 | None => 0 end |}.

Definition main (e : env) (year : option Z) (shell : string) : run :=
  let (analyzer, k) := HistoryAnalyzer.init e year in
  match HistoryAnalyzer.analyze_commands analyzer e k shell with
  | (_, out, Some ex) => finish out (Some ex)
  | (analyzer', out, None) =>
      match HistoryAnalyzer.generate_report analyzer' with
      | (out', Ok _) => finish (out ++ out')%list None
      | (out', Raise ex) => finish (out ++ out')%list (Some ex)
      end
  end.

(** * Vocabulary of the properties *)

Import HistoryAnalyzer.

(** A result that is a value or a [ValueError], the one exception
    class the lexer raises. *)
Definition value_error_or_ok {A : Type} (r : result A) : Prop :=
  match r with
  | Ok _ | Raise (ValueError _) => True
  | Raise _ => False
  end.

(** Every character of [s] satisfies [p]. *)
Fixpoint all_chars (p : ascii -> bool) (s : string) : bool :=
  match s with
  | EmptyString => true
  | String c s' => p c && all_chars p s'
  end.

(** What the fallback keeps of a command: the text before its first
    quote character. *)
Fixpoint before_first_quote (s : string) : string :=
  match s with
  | EmptyString => ""
  | String c s' => if Shlex.in_quotes c then "" else String c (before_first_quote s')
  end.

(** The tallies agree: the counter of commands is the sum of the
    per-command counts, the set of base commands is the key set of the
    per-command counts, and no key is listed twice. *)
Definition tally_invariant (d : data) : Prop :=
  total_commands d = od_sum (total_command_count d)
  /\ unique_commands d = list_to_set (od_keys (total_command_count d))
  /\ NoDup (od_keys (total_command_count d)).

(** The target-year test of [analyze_commands], on a record. *)
Definition in_year (y : Z) (r : record) : bool := Datetime.year (snd r) =? y.

(** The records folded into the analyzer one after the other, with no
    year test at all: what [analyze_commands] is compared with. *)
Fixpoint process_records (self : t) (records : list record) : t * list line :=
  match records with
  | [] => (self, [])
  | (command, timestamp) :: rest =>
      let (self', out) := _process_command self command timestamp in
      let (self'', out') := process_records self' rest in
      (self'', (out ++ out')%list)
  end.

(** The command has a base command: its token list is not empty. *)
Definition has_base_command (command : string) : bool :=
  match _safe_split_command command with
  | Ok (_ :: _) => true
  | _ => false
  end.

(** The records that reach the counters: those of the target year
    whose command has a base command. *)
Definition counted (y : Z) (r : record) : bool :=
  in_year y r && has_base_command (fst r).

(** Strictly before the sentinel [datetime.max]. *)
Definition before_max (r : record) : Prop := Datetime.lt (snd r) Datetime.max = true.

(** [d] holds the earliest of the records [seen]: none if there is
    none, else the first record of [seen] whose time no other record
    of [seen] precedes. *)
Definition holds_earliest (d : data) (seen : list record) : Prop :=
  (seen = [] /\ first_command d = None /\ first_command_time d = Datetime.max)
  \/ (exists before command timestamp after,
        seen = (before ++ (command, timestamp) :: after)%list
        /\ first_command d = Some command
        /\ first_command_time d = timestamp
        /\ Forall (fun r => Datetime.lt timestamp (snd r) = true) before
        /\ Forall (fun r => Datetime.lt (snd r) timestamp = false) after).

(** A sample environment: one history file for zsh, local time UTC, a
    clock that reads noon of 2023-06-15. *)
Definition newline : string := String (ascii_of_nat 10) "".

Definition sample_env (zsh_history : string) : env := {|
  home := "/home/user";
  files := {[ "/home/user/.zsh_history" := zsh_history ]};
  utcoffset := fun _ => 0;
  clock := fun _ => Datetime.mk_datetime 2023 6 15 12 0 0 0
|}.

(** [k] is the key of the first item of [d], in iteration order, whose
    value is the maximum: the items before it are strictly smaller,
    those after it are no greater. *)
Definition first_maximum {K : Type} (d : odict K Z) (k : K) : Prop :=
  exists before v after,
    d = (before ++ (k, v) :: after)%list
    /\ Forall (fun item => snd item < v) before
    /\ Forall (fun item => snd item <= v) after.

(** The states [generate_report] is written for: months and weekdays in
    their calendar ranges, and something counted in the weekday and
    hour buckets. *)
Definition report_ready (d : data) : Prop :=
  Forall (fun item => 1 <= fst item <= 12) (commands_by_month d)
  /\ Forall (fun item => 0 <= fst item <= 6) (commands_by_weekday d)
  /\ commands_by_weekday d <> []
  /\ commands_by_hour d <> [].

(** Five commands on Thursday 2023-01-05 followed by five on Monday
    2023-01-02. *)
Definition thursday_then_monday : list record :=
  (replicate 5 ("ls", Datetime.mk_datetime 2023 1 5 10 0 0 0)
   ++ replicate 5 ("ls", Datetime.mk_datetime 2023 1 2 10 0 0 0))%list.

(** The month of the record's timestamp is a calendar month, as it is
    for every [datetime] object. *)
Definition calendar_month (r : record) : Prop := 1 <= Datetime.month (snd r) <= 12.

(** The shell is not one of the known ones, or its history file does
    not exist. *)
Definition history_file_missing (e : env) (shell : string) : Prop :=
  match od_get shell (history_files e) with
  | None => True
  | Some history_file => files e !! history_file = None
  end.

(** An environment with a fish history file only. *)
Definition fish_env : env := {|
  home := "/home/user";
  files := {[ "/home/user/.local/share/fish/fish_history" := "- cmd: ls" ]};
  utcoffset := fun _ => 0;
  clock := fun _ => Datetime.mk_datetime 2023 6 15 12 0 0 0
|}.

Definition no_fish_parser : exn :=
  AttributeError "'HistoryAnalyzer' object has no attribute '_parse_fish_history'".

Definition empty_max : exn := ValueError "max() arg is an empty sequence".

(** The part of [report_ready] that every step keeps, and the part
    that the first counted record establishes. *)
Definition calendar_keys (d : data) : Prop :=
  Forall (fun item => 1 <= fst item <= 12) (commands_by_month d)
  /\ Forall (fun item => 0 <= fst item <= 6) (commands_by_weekday d).

Definition has_data (d : data) : Prop :=
  commands_by_weekday d <> [] /\ commands_by_hour d <> [].

(** ** Vocabulary of the further properties *)

(** [sum(m['count'] for m in commands_by_month.values())] *)
Definition month_total (months : odict Z month_data) : Z :=
  fold_right Z.add 0 (map (fun item => count (snd item)) months).

(** Every bucket accounts for every counted command exactly once: the
    weekday, hour and day-of-year counts and the monthly counts each
    add up to [total_commands], the count of a month is the sum of its
    per-command tallies, and no bucket lists a key twice. *)
Definition buckets_agree (d : data) : Prop :=
  od_sum (commands_by_weekday d) = total_commands d
  /\ od_sum (commands_by_hour d) = total_commands d
  /\ od_sum (commands_by_day d) = total_commands d
  /\ month_total (commands_by_month d) = total_commands d
  /\ Forall (fun item => count (snd item) = od_sum (commands (snd item))
                         /\ NoDup (od_keys (commands (snd item))))
       (commands_by_month d)
  /\ NoDup (od_keys (commands_by_weekday d))
  /\ NoDup (od_keys (commands_by_hour d))
  /\ NoDup (od_keys (commands_by_day d))
  /\ NoDup (od_keys (commands_by_month d)).

(** Neither a quote nor the escape character. *)
Definition plain (c : ascii) : bool :=
  negb (Shlex.in_quotes c) && negb (Shlex.in_escape c).

(** The maximal runs of characters of [s] that do not satisfy [sep];
    [cur] is the run being read. *)
Fixpoint runs (sep : ascii -> bool) (s cur : string) : list string :=
  match s with
  | EmptyString => if is_empty cur then [] else [cur]
  | String c s' =>
      if sep c
      then (if is_empty cur then runs sep s' "" else cur :: runs sep s' "")
      else runs sep s' (snoc cur c)
  end.



(** The number of occurrences of [sep] in [s]. *)
Fixpoint count_char (sep : ascii) (s : string) : nat :=
  match s with
  | EmptyString => 0%nat
  | String c s' => ((if Ascii.eqb c sep then 1 else 0) + count_char sep s')%nat
  end.

(** A line the zsh parser passes over: no leading colon, or fewer than
    two semicolons. *)
Definition zsh_skipped (line : string) : Prop :=
  startswith ":" line = false \/ (count_char ";" line < 2)%nat.

Definition first_char (s : string) : option ascii :=
  match s with
  | EmptyString => None
  | String c _ => Some c
  end.

Fixpoint last_char (s : string) : option ascii :=
  match s with
  | EmptyString => None
  | String c EmptyString => Some c
  | String _ s' => last_char s'
  end.

Definition not_space (c : option ascii) : Prop :=
  match c with
  | Some c => isspace c = false
  | None => True
  end.

(** No whitespace at either end. *)
Definition trimmed (s : string) : Prop :=
  not_space (first_char s) /\ not_space (last_char s).

(** The report on a state where nothing was counted: the header, the
    totals and the three titles. *)
Definition empty_report (y : Z) : list line :=
  [ Header y; TotalCommands 0; UniqueCommands 0;
    MostUsedTitle; ActiveMonthsTitle; TopInMonthsTitle ].

(** How [main] ends once the history is parsed: nothing but the
    traceback if the generator raised, else the report. *)
Definition report_run (analyzer : t) (parsed : stream) : run :=
  match snd parsed with
  | Some ex => finish [] (Some ex)
  | None =>
      match generate_report (fst (analyze_records analyzer (fst parsed))) with
      | (out, Ok _) => finish out None
      | (out, Raise ex) => finish out (Some ex)
      end
  end.

(** An environment with a bash history file only; the clock reads noon
    of 2023-06-15 plus one second per reading. *)
Definition bash_env (bash_history : string) : env := {|
  home := "/home/user";
  files := {[ "/home/user/.bash_history" := bash_history ]};
  utcoffset := fun _ => 0;
  clock := fun i => Datetime.mk_datetime 2023 6 15 12 0 (Z.of_nat i) 0
|}.

(** [month_names[month-1]] and [weekdays[w]] for indices in range. *)
Definition month_name (month : Z) : string := nth (Z.to_nat (month - 1)) month_names "".
Definition weekday_name (w : Z) : string := nth (Z.to_nat w) weekdays "".

(** The report as a list: what [generate_report] prints when it runs to
    its end with [weekday] and [hour] as the most active ones. *)
Definition report_lines (self : t) (weekday hour : Z) : list line :=
  let d := command_data self in
  let active_months :=
    take 3 (sorted_desc (fun x => count (snd x)) (commands_by_month d)) in
  ([ Header (year self);
     TotalCommands (total_commands d);
     UniqueCommands (Z.of_nat (size (unique_commands d)));
     MostUsedTitle ]
   ++ map (fun item => CommandCount (fst item) (snd item))
        (take 10 (sorted_desc snd (total_command_count d)))
   ++ [ ActiveMonthsTitle ]
   ++ flat_map (fun item => [ MonthCount (month_name (fst item)) (count (snd item)) ])
        active_months
   ++ [ TopInMonthsTitle ]
   ++ flat_map (fun item =>
                  MonthName (month_name (fst item))
                  :: map (fun c => MonthCommandCount (fst c) (snd c))
                       (take 3 (sorted_desc snd (commands (snd item)))))
        active_months
   ++ [ MostActiveDay (weekday_name weekday); MostActiveHour hour ])%list.

(** Every item is followed only by items whose key is no greater. *)
Fixpoint descending {A : Type} (key : A -> Z) (l : list A) : Prop :=
  match l with
  | [] => True
  | x :: l' => Forall (fun y => key y <= key x) l' /\ descending key l'
  end.

(** The items of [l] whose key is [v], in the order of [l]. *)
Definition with_key {A : Type} (key : A -> Z) (v : Z) (l : list A) : list A :=
  List.filter (fun x => key x =? v) l.

(** A token is under way in the lexer: some text or a quotation was
    read since the last token ended. *)
Definition under_way (state : Shlex.lex_state) (token : string) (quoted : bool) : Prop :=
  is_empty token = false \/ quoted = true
  \/ match state with
     | Shlex.Quoted _ | Shlex.Escaped _ => True
     | _ => False
     end.


(** * Properties *)

(** ** The tokenizer *)

Section Tokenizer.

Lemma emit_value_error token quoted next :
  value_error_or_ok next -> value_error_or_ok (Shlex.emit token quoted next).
Proof.
  unfold Shlex.emit. intros Hnext.
  destruct (negb quoted && is_empty token); [exact I|].
  destruct next as [ts|ex]; simpl; [exact I|exact Hnext].
Qed.

Lemma lex_value_error inp :
  forall state token quoted escapedstate,
    value_error_or_ok (Shlex.lex inp state token quoted escapedstate).
Proof.
  induction inp as [|c rest IH]; intros state token quoted escapedstate.
  - destruct state; simpl; try exact I.
    all: apply emit_value_error; exact I.
  - destruct state; simpl; repeat case_match;
      first [ apply IH | apply emit_value_error; apply IH ].
Qed.

Lemma lex_blank_input inp :
  forall escapedstate,
    all_chars Shlex.in_whitespace inp = true ->
    Shlex.lex inp Shlex.Blank "" false escapedstate = Ok [].
Proof.
  induction inp as [|c rest IH]; intros escapedstate Hws.
  - reflexivity.
  - simpl in Hws. apply andb_true_iff in Hws as [Hc Hrest].
    simpl. rewrite Hc. simpl. apply IH, Hrest.
Qed.

Lemma sub_quotes_inside s :
  forall q, Shlex.in_quotes q = true -> Re.sub_quotes s (Some q) = "".
Proof.
  induction s as [|c s IH]; intros q Hq; simpl; [reflexivity|].
  destruct (Ascii.eqb c q) eqn:Hc.
  - apply IH. apply Ascii.eqb_eq in Hc. subst c. exact Hq.
  - apply IH, Hq.
Qed.

Lemma sub_before_first_quote s : Re.sub s = before_first_quote s.
Proof.
  unfold Re.sub. induction s as [|c s IH]; simpl; [reflexivity|].
  destruct (Shlex.in_quotes c) eqn:Hc.
  - apply sub_quotes_inside, Hc.
  - f_equal. exact IH.
Qed.


End Tokenizer.


(** The lexer's whitespace is narrower than [str.isspace]: a vertical
    tab is a word character for [shlex], so a command made of one is a
    token.  The parsers strip every command with [str.strip] first, so
    such a command never reaches the tokenizer with blanks around it. *)
Example vertical_tab_is_a_token :
  isspace (ascii_of_nat 11) = true
  /\ _safe_split_command (String (ascii_of_nat 11) "")
     = Ok [ String (ascii_of_nat 11) "" ].
Proof. split; reflexivity. Qed.


(** ** The tallies *)

Section Tallies.

Context {K : Type} `{EqDecision K}.

Lemma od_keys_update {V : Type} (f : V -> V) (dflt : V) (k : K) (d : odict K V) :
  od_keys (od_update f dflt k d)
  = if decide (k ∈ od_keys d) then od_keys d else (od_keys d ++ [k])%list.
Proof.
  induction d as [|[k' v] d IH]; simpl.
  - destruct (decide (k ∈ [])) as [Hin|_]; [|reflexivity].
    exfalso. eapply not_elem_of_nil, Hin.
  - destruct (decide (k' = k)) as [->|Hne]; simpl.
    + destruct (decide (k ∈ k :: od_keys d)) as [_|Hout]; [reflexivity|].
      exfalso. apply Hout, list_elem_of_here.
    + rewrite IH. destruct (decide (k ∈ od_keys d)) as [Hin|Hout].
      * destruct (decide (k ∈ k' :: od_keys d)) as [_|Hout]; [reflexivity|].
        exfalso. apply Hout, list_elem_of_further, Hin.
      * destruct (decide (k ∈ k' :: od_keys d)) as [Hin|_]; [|reflexivity].
        exfalso. apply elem_of_cons in Hin as [Heq|Hin]; congruence.
Qed.

Lemma od_keys_update_NoDup {V : Type} (f : V -> V) (dflt : V) (k : K) (d : odict K V) :
  NoDup (od_keys d) -> NoDup (od_keys (od_update f dflt k d)).
Proof.
  intros Hd. rewrite od_keys_update. case_decide; [exact Hd|].
  apply NoDup_app. split; [exact Hd|]. split.
  - intros x Hx Hk. apply list_elem_of_singleton in Hk. congruence.
  - apply NoDup_singleton.
Qed.

Lemma od_sum_incr (k : K) (d : odict K Z) : od_sum (od_incr k d) = od_sum d + 1.
Proof.
  unfold od_sum, od_values, od_incr.
  induction d as [|[k' v] d IH]; simpl; [reflexivity|].
  case_decide; simpl; lia.
Qed.

End Tallies.

Lemma od_keys_incr_set (k : string) (d : odict string Z) :
  list_to_set (od_keys (od_incr k d)) =@{gset string} {[ k ]} ∪ list_to_set (od_keys d).
Proof.
  unfold od_incr. rewrite od_keys_update. case_decide as Hin.
  - apply set_eq. intros x. rewrite elem_of_union, elem_of_singleton.
    rewrite !elem_of_list_to_set. split; [auto|]. intros [->|Hx]; assumption.
  - rewrite list_to_set_app_L. simpl.
    rewrite (right_id_L ∅ (∪)). apply (comm_L (∪)).
Qed.

Lemma init_invariant e year : tally_invariant (command_data (fst (init e year))).
Proof.
  unfold init. destruct year as [y|]; [destruct (y =? 0)|]; simpl.
  all: repeat split; try reflexivity; apply NoDup_nil_2.
Qed.

Lemma process_command_invariant self command timestamp :
  tally_invariant (command_data self) ->
  tally_invariant (command_data (fst (_process_command self command timestamp))).
Proof.
  intros (Hsum & Hset & Hnodup). unfold _process_command.
  destruct (_safe_split_command command) as [[|base_command rest]|ex]; simpl.
  - repeat split; assumption.
  - repeat split; simpl.
    + rewrite od_sum_incr. lia.
    + rewrite od_keys_incr_set. congruence.
    + apply od_keys_update_NoDup, Hnodup.
  - repeat split; assumption.
Qed.

Lemma analyze_records_invariant records :
  forall self,
    tally_invariant (command_data self) ->
    tally_invariant (command_data (fst (analyze_records self records))).
Proof.
  induction records as [|[command timestamp] rest IH]; intros self Hinv; simpl.
  - exact Hinv.
  - destruct (negb (Datetime.year timestamp =? year self)); [apply IH, Hinv|].
    pose proof (process_command_invariant self command timestamp Hinv) as Hstep.
    destruct (_process_command self command timestamp) as [self' out].
    specialize (IH self' Hstep).
    destruct (analyze_records self' rest) as [self'' out']. exact IH.
Qed.

(** C4.  Starting from a fresh analyzer, after the loop of
    [analyze_commands] has consumed any number [n] of the records of any
    stream, [total_commands] is the sum of the values of
    [total_command_count] and [unique_commands] is the set of its keys
    (which are pairwise distinct). *)
Theorem totals_agree_after_every_record
    (e : env) (year : option Z) (records : list record) (n : nat) :
  tally_invariant
    (command_data (fst (analyze_records (fst (init e year)) (take n records)))).
Proof. apply analyze_records_invariant, init_invariant. Qed.

(** ** The year filter *)

Lemma process_command_year self command timestamp :
  year (fst (_process_command self command timestamp)) = year self.
Proof.
  unfold _process_command.
  destruct (_safe_split_command command) as [[|base_command rest]|ex]; reflexivity.
Qed.

Lemma analyze_records_filter records :
  forall self,
    analyze_records self records
    = process_records self (List.filter (in_year (year self)) records).
Proof.
  induction records as [|[command timestamp] rest IH]; intros self; simpl.
  - reflexivity.
  - unfold in_year at 1. simpl.
    destruct (Datetime.year timestamp =? year self); simpl.
    + pose proof (process_command_year self command timestamp) as Hyear.
      destruct (_process_command self command timestamp) as [self' out].
      simpl in Hyear. rewrite IH, Hyear. reflexivity.
    + apply IH.
Qed.

(** C5.  A record whose year is not the target year is skipped with the
    analyzer untouched and nothing printed, wherever it stands in the
    stream; and the whole loop computes what folding only the records
    of the target year computes: no counter, bucket or [first_command]
    sees any other record. *)
Theorem other_years_leave_no_trace (self : t) (records : list record) :
  (forall command timestamp rest,
      in_year (year self) (command, timestamp) = false ->
      analyze_records self ((command, timestamp) :: rest) = analyze_records self rest)
  /\ analyze_records self records
     = process_records self (List.filter (in_year (year self)) records).
Proof.
  split.
  - intros command timestamp rest Hyear. unfold in_year in Hyear. simpl in *.
    rewrite Hyear. reflexivity.
  - apply analyze_records_filter.
Qed.

Lemma other_years_leave_no_trace_witness :
  let self := fst (init (sample_env "") (Some 2023)) in
  let old := ("git status", Datetime.mk_datetime 2022 3 1 10 0 0 0) in
  let new := ("ls -la", Datetime.mk_datetime 2023 3 1 10 0 0 0) in
  in_year (year self) old = false
  /\ analyze_records self [old; new] = analyze_records self [new]
  /\ total_commands (command_data (fst (analyze_records self [old; new; old]))) = 1.
Proof.
  intros self old new.
  pose proof (other_years_leave_no_trace self [old; new; old]) as [Hskip Hfilter].
  split; [reflexivity|]. split.
  - apply (Hskip "git status" (Datetime.mk_datetime 2022 3 1 10 0 0 0) [new]).
    reflexivity.
  - rewrite Hfilter. vm_compute. reflexivity.
Defined.

(** ** The earliest command *)

Section Order.

Lemma tuple_lt_irrefl a : Datetime.tuple_lt a a = false.
Proof.
  induction a as [|x a IH]; simpl; [reflexivity|].
  rewrite Z.ltb_irrefl. exact IH.
Qed.

(** [a < b] and [not (c < b)] give [a < c]. *)
Lemma tuple_lt_below a :
  forall b c,
    Datetime.tuple_lt a b = true ->
    Datetime.tuple_lt c b = false ->
    Datetime.tuple_lt a c = true.
Proof.
  induction a as [|x a IH]; intros [|y b] [|z c]; simpl; try congruence.
  destruct (Z.ltb_spec x y), (Z.ltb_spec y x), (Z.ltb_spec z y), (Z.ltb_spec y z),
    (Z.ltb_spec x z), (Z.ltb_spec z x); try congruence; try lia.
  apply IH.
Qed.

Lemma tuple_lt_asym a :
  forall b, Datetime.tuple_lt a b = true -> Datetime.tuple_lt b a = false.
Proof.
  induction a as [|x a IH]; intros [|y b]; simpl; try congruence.
  destruct (Z.ltb_spec x y), (Z.ltb_spec y x); try congruence; try lia.
  apply IH.
Qed.

Lemma lt_below a b c :
  Datetime.lt a b = true -> Datetime.lt c b = false -> Datetime.lt a c = true.
Proof. apply tuple_lt_below. Qed.

Lemma lt_asym a b : Datetime.lt a b = true -> Datetime.lt b a = false.
Proof. apply tuple_lt_asym. Qed.

Lemma lt_trans a b c :
  Datetime.lt a b = true -> Datetime.lt b c = true -> Datetime.lt a c = true.
Proof. intros Hab Hbc. eapply lt_below; [exact Hab|]. apply lt_asym, Hbc. Qed.

End Order.

(** One counted record more: the analyzer holds the earliest of the
    records seen so far. *)
Lemma process_command_earliest self command timestamp seen :
  has_base_command command = true ->
  before_max (command, timestamp) ->
  holds_earliest (command_data self) seen ->
  holds_earliest (command_data (fst (_process_command self command timestamp)))
    (seen ++ [(command, timestamp)]).
Proof.
  unfold has_base_command, before_max, _process_command. simpl.
  intros Hbase Hmax Hseen.
  destruct (_safe_split_command command) as [[|base_command rest]|ex];
    try discriminate.
  simpl. right.
  destruct Hseen as [(-> & Hnone & Htime)
                    |(before & c0 & t0 & after & -> & Hsome & Htime & Hbefore & Hafter)].
  - rewrite Htime, Hmax.
    exists [], command, timestamp, []. repeat split; constructor.
  - rewrite Htime. destruct (Datetime.lt timestamp t0) eqn:Hlt.
    + exists (before ++ (c0, t0) :: after)%list, command, timestamp, [].
      repeat split; [|constructor].
      apply Forall_app. split; [|constructor].
      * eapply Forall_impl; [exact Hbefore|]. simpl.
        intros r Hr. eapply lt_trans; eassumption.
      * exact Hlt.
      * eapply Forall_impl; [exact Hafter|]. simpl.
        intros r Hr. eapply lt_below; eassumption.
    + exists before, c0, t0, (after ++ [(command, timestamp)])%list.
      repeat split; try assumption.
      * rewrite <- app_assoc. reflexivity.
      * apply Forall_app. split; [exact Hafter|]. constructor; [exact Hlt|constructor].
Qed.

Lemma process_command_not_counted self command timestamp :
  has_base_command command = false ->
  command_data (fst (_process_command self command timestamp)) = command_data self.
Proof.
  unfold has_base_command, _process_command.
  destruct (_safe_split_command command) as [[|base_command rest]|ex];
    try discriminate; reflexivity.
Qed.

Lemma analyze_records_earliest records :
  forall self seen,
    Forall before_max (List.filter (counted (year self)) records) ->
    holds_earliest (command_data self) seen ->
    holds_earliest (command_data (fst (analyze_records self records)))
      (seen ++ List.filter (counted (year self)) records).
Proof.
  induction records as [|[command timestamp] rest IH]; intros self seen Hmax Hseen.
  - simpl. rewrite app_nil_r. exact Hseen.
  - simpl in *. unfold counted, in_year in Hmax |- *. simpl in *.
    destruct (Datetime.year timestamp =? year self) eqn:Hyear; simpl in *.
    + pose proof (process_command_year self command timestamp) as Hsame.
      destruct (has_base_command command) eqn:Hbase.
      * apply Forall_cons in Hmax as [Hthis Hrest].
        pose proof (process_command_earliest self command timestamp seen
                      Hbase Hthis Hseen) as Hstep.
        destruct (_process_command self command timestamp) as [self' out].
        simpl in Hsame, Hstep.
        specialize (IH self' (seen ++ [(command, timestamp)])%list).
        rewrite Hsame in IH. specialize (IH Hrest Hstep).
        destruct (analyze_records self' rest) as [self'' out'].
        simpl in IH |- *. rewrite <- app_assoc in IH. exact IH.
      * pose proof (process_command_not_counted self command timestamp Hbase) as Hstep.
        destruct (_process_command self command timestamp) as [self' out].
        simpl in Hsame, Hstep.
        specialize (IH self' seen). rewrite Hsame, Hstep in IH.
        specialize (IH Hmax Hseen).
        destruct (analyze_records self' rest) as [self'' out']. exact IH.
    + apply IH; assumption.
Qed.

Lemma init_earliest e year : holds_earliest (command_data (fst (init e year))) [].
Proof.
  left. unfold init. destruct year as [y|]; [destruct (y =? 0)|]; simpl; auto.
Qed.




(** ** The report *)

Section Report.

Lemma max_from_first_maximum {K : Type} (l : list (K * Z)) :
  forall best : K * Z,
    exists before after,
      (best :: l = before ++ max_from best l :: after)%list
      /\ Forall (fun item => snd item < snd (max_from best l)) before
      /\ Forall (fun item => snd item <= snd (max_from best l)) after.
Proof.
  induction l as [|x l IH]; intros best; simpl.
  - exists [], []. repeat split; constructor.
  - destruct (Z.ltb_spec (snd best) (snd x)) as [Hlt|Hge].
    + destruct (IH x) as (before & after & Heq & Hbefore & Hafter).
      exists (best :: before), after. repeat split.
      * simpl. rewrite <- Heq. reflexivity.
      * constructor; [|exact Hbefore].
        destruct before as [|y before]; simpl in Heq.
        -- injection Heq as Hx _. rewrite <- Hx. exact Hlt.
        -- injection Heq as Hx _. subst y.
           apply Forall_cons in Hbefore as [Hx _]. lia.
      * exact Hafter.
    + destruct (IH best) as (before & after & Heq & Hbefore & Hafter).
      destruct before as [|y before]; simpl in Heq.
      * injection Heq as Hbest Hl.
        exists [], (x :: after). repeat split.
        -- simpl. rewrite <- Hbest, <- Hl. reflexivity.
        -- constructor.
        -- constructor; [|exact Hafter]. rewrite <- Hbest. exact Hge.
      * injection Heq as Hy Hl. subst y.
        exists (best :: x :: before), after. repeat split.
        -- simpl. do 2 f_equal. exact Hl.
        -- apply Forall_cons in Hbefore as [Hbest Hbefore].
           repeat constructor; [exact Hbest|lia|exact Hbefore].
        -- exact Hafter.
Qed.

Lemma most_active_first_maximum (d : odict Z Z) :
  d <> [] -> exists k, most_active d = Ok k /\ first_maximum d k.
Proof.
  destruct d as [|x d]; [congruence|]. intros _.
  unfold most_active. simpl.
  destruct (max_from_first_maximum d x) as (before & after & Heq & Hbefore & Hafter).
  exists (fst (max_from x d)). split; [reflexivity|].
  exists before, (snd (max_from x d)), after.
  rewrite <- surjective_pairing. auto.
Qed.

Lemma io_bind_ok {A B : Type} (out : list line) (a : A) (f : A -> io B) :
  io_bind (out, Ok a) f = ((out ++ fst (f a))%list, snd (f a)).
Proof. simpl. destruct (f a). reflexivity. Qed.

Lemma for_each_print {A : Type} (l : list A) (body : A -> io unit) (g : A -> line) :
  (forall x, body x = print (g x)) ->
  for_each l body = (map g l, Ok tt).
Proof.
  intros Hbody. induction l as [|x l IH]; simpl; [reflexivity|].
  rewrite Hbody, IH. reflexivity.
Qed.


Lemma getitem_in_range {A : Type} (l : list A) (i : Z) :
  0 <= i < Z.of_nat (length l) ->
  exists a, getitem l i = Ok a /\ nth_error l (Z.to_nat i) = Some a.
Proof.
  intros Hi. unfold getitem.
  destruct (Z.ltb_spec i 0); [lia|].
  destruct (Z.ltb_spec i 0); [lia|].
  destruct (Z.leb_spec (Z.of_nat (length l)) i); [lia|]. simpl.
  destruct (nth_error l (Z.to_nat i)) as [a|] eqn:Hnth.
  - exists a. split; reflexivity.
  - apply nth_error_None in Hnth. lia.
Qed.

Lemma insert_desc_Forall {A : Type} (P : A -> Prop) key x (l : list A) :
  P x -> Forall P l -> Forall P (insert_desc key x l).
Proof.
  intros Hx. induction 1 as [|y l Hy Hl IH]; simpl.
  - repeat constructor. exact Hx.
  - destruct (key x <? key y); repeat constructor; assumption.
Qed.

Lemma sorted_desc_Forall {A : Type} (P : A -> Prop) key (l : list A) :
  Forall P l -> Forall P (sorted_desc key l).
Proof.
  induction 1 as [|x l Hx Hl IH]; simpl; [constructor|].
  apply insert_desc_Forall; assumption.
Qed.

End Report.


Section Reachable.

Lemma od_update_Forall {K V : Type} `{EqDecision K} (P : K -> Prop)
    (f : V -> V) (dflt : V) (k : K) (d : odict K V) :
  P k ->
  Forall (fun item => P (fst item)) d ->
  Forall (fun item => P (fst item)) (od_update f dflt k d).
Proof.
  intros Hk. induction 1 as [|[k' v] d Hx Hd IH]; simpl.
  - repeat constructor. exact Hk.
  - case_decide; constructor; assumption.
Qed.

Lemma od_update_not_empty {K V : Type} `{EqDecision K}
    (f : V -> V) (dflt : V) (k : K) (d : odict K V) :
  od_update f dflt k d <> [].
Proof. destruct d as [|[k' v] d]; simpl; [|case_decide]; discriminate. Qed.

Lemma weekday_range timestamp : 0 <= Datetime.weekday timestamp <= 6.
Proof.
  unfold Datetime.weekday.
  pose proof (Z.mod_pos_bound (Datetime.toordinal timestamp + 6) 7). lia.
Qed.

Lemma process_command_calendar_keys self command timestamp :
  calendar_month (command, timestamp) ->
  calendar_keys (command_data self) ->
  calendar_keys (command_data (fst (_process_command self command timestamp))).
Proof.
  intros Hmonth [Hmonths Hdays]. unfold _process_command.
  destruct (_safe_split_command command) as [[|base_command rest]|ex]; simpl;
    try (split; assumption).
  split.
  - apply (od_update_Forall (fun m => 1 <= m <= 12)); assumption.
  - apply (od_update_Forall (fun w => 0 <= w <= 6)); [apply weekday_range|assumption].
Qed.

Lemma process_command_has_data self command timestamp :
  has_data (command_data self) \/ has_base_command command = true ->
  has_data (command_data (fst (_process_command self command timestamp))).
Proof.
  unfold has_base_command, _process_command.
  destruct (_safe_split_command command) as [[|base_command rest]|ex]; simpl.
  - intros [H|H]; [exact H|discriminate].
  - intros _. split; apply od_update_not_empty.
  - intros [H|H]; [exact H|discriminate].
Qed.

Lemma analyze_records_report_ready_from records :
  forall self,
    Forall calendar_month records ->
    calendar_keys (command_data self) ->
    has_data (command_data self)
    \/ List.filter (counted (year self)) records <> [] ->
    report_ready (command_data (fst (analyze_records self records))).
Proof.
  induction records as [|[command timestamp] rest IH]; intros self Hcal Hkeys Hdata.
  - simpl in *. destruct Hkeys as [Hmonths Hdays].
    destruct Hdata as [[Hw Hh]|Hnone]; [|congruence].
    repeat split; assumption.
  - apply Forall_cons in Hcal as [Hthis Hrest]. simpl in *.
    unfold counted, in_year in Hdata. simpl in Hdata.
    destruct (Datetime.year timestamp =? year self) eqn:Hyear; simpl in *.
    + pose proof (process_command_year self command timestamp) as Hsame.
      pose proof (process_command_calendar_keys self command timestamp Hthis Hkeys)
        as Hkeys'.
      pose proof (process_command_has_data self command timestamp) as Hdata'.
      destruct (_process_command self command timestamp) as [self' out].
      simpl in Hsame, Hkeys', Hdata'.
      specialize (IH self' Hrest Hkeys'). rewrite Hsame in IH.
      destruct (analyze_records self' rest) as [self'' out']. simpl in *.
      apply IH. destruct Hdata as [Hdata|Hdata].
      * left. apply Hdata'. left. exact Hdata.
      * destruct (has_base_command command).
        -- left. apply Hdata'. right. reflexivity.
        -- right. exact Hdata.
    + apply IH; assumption.
Qed.

(** A fresh analyzer that has counted at least one record is in a
    state [generate_report] is written for. *)
Lemma analyze_records_report_ready e y records :
  Forall calendar_month records ->
  List.filter (counted (year (fst (init e y)))) records <> [] ->
  report_ready (command_data (fst (analyze_records (fst (init e y)) records))).
Proof.
  intros Hcal Hsome. apply analyze_records_report_ready_from; [exact Hcal| |].
  - unfold init. destruct y as [y|]; [destruct (y =? 0)|]; simpl; split; constructor.
  - right. exact Hsome.
Qed.

End Reachable.



(** C3 (the code departs from it).  On the state of a fresh analyzer,
    where nothing was counted, [generate_report] prints the header, the
    two totals and the three section titles, and then raises
    [ValueError] from [max] over the empty weekday bucket; [main] on an
    existing but empty history file ends so, with status 1. *)
Theorem generate_report_raises_without_data (e : env) (year : option Z) :
  let self := fst (init e year) in
  generate_report self
  = ([ Header (HistoryAnalyzer.year self); TotalCommands 0; UniqueCommands 0;
       MostUsedTitle; ActiveMonthsTitle; TopInMonthsTitle ], Raise empty_max)
  /\ main (sample_env "") (Some 2023) "zsh"
     = {| stdout := [ Header 2023; TotalCommands 0; UniqueCommands 0;
                      MostUsedTitle; ActiveMonthsTitle; TopInMonthsTitle ];
          uncaught := Some empty_max;
          exit_status := 1 |}.
Proof.
  split.
  - unfold init. destruct year as [y|]; [destruct (y =? 0)|]; reflexivity.
  - vm_compute. reflexivity.
Qed.

(** ** The zsh parser *)

(** C1 (the code departs from it).  The line of the specification,
    with or without its newline, has two parts between semicolons, and
    the parser asks for three: it yields no record.  What the parser
    does accept is a line with a further field: the timestamp is read
    from the second part and the command from the third part on. *)
Theorem zsh_sample_line_yields_no_record (e : env) :
  _parse_zsh_lines e [ ":1700000000:0;git status" +:+ newline ] = ([], None)
  /\ _parse_zsh_lines e [ ":1700000000:0;git status" ] = ([], None)
  /\ _parse_zsh_lines (sample_env "") [ ":0;1700000000;git status;ls" +:+ newline ]
     = ([ ("git status;ls", Datetime.mk_datetime 2023 11 14 22 13 20 0) ], None).
Proof. repeat split; vm_compute; reflexivity. Qed.

(** C2 (the code departs from it).  A zsh line whose second part is
    not a number makes [int] raise inside the generator, outside the
    [try] of [_process_command]: the exception leaves the loop of
    [analyze_commands] and [main], nothing is printed, and the
    well-formed line after it is never read.  That second line alone is
    counted and reported. *)
Theorem zsh_bad_timestamp_aborts_run :
  let bad := ":1700000000:0;echo a;echo b" +:+ newline in
  let good := ":0;1700000000;git status" +:+ newline in
  _parse_zsh_lines (sample_env "") [ bad; good ] = ([], Some int_error)
  /\ main (sample_env (bad +:+ good)) (Some 2023) "zsh"
     = {| stdout := []; uncaught := Some int_error; exit_status := 1 |}
  /\ main (sample_env good) (Some 2023) "zsh"
     = {| stdout := [ Header 2023; TotalCommands 1; UniqueCommands 1;
                      MostUsedTitle; CommandCount "git" 1;
                      ActiveMonthsTitle; MonthCount "November" 1;
                      TopInMonthsTitle; MonthName "November";
                      MonthCommandCount "git" 1;
                      MostActiveDay "Tuesday"; MostActiveHour 22 ];
          uncaught := None;
          exit_status := 0 |}.
Proof. repeat split; vm_compute; reflexivity. Qed.

(** ** Fatal conditions *)

Lemma exists_missing e p : files e !! p = None -> exists_ e p = false.
Proof.
  intros Hnone. unfold exists_. rewrite Hnone.
  apply bool_decide_eq_false. intros [x Hx]. discriminate.
Qed.

Lemma exists_present e p : is_Some (files e !! p) -> exists_ e p = true.
Proof. intros Hsome. unfold exists_. apply bool_decide_eq_true, Hsome. Qed.

Lemma parse_shell_history_missing e k shell :
  history_file_missing e shell ->
  parse_shell_history e k shell
  = Raise (FileNotFoundError ("History file not found for " +:+ shell)).
Proof.
  unfold history_file_missing, parse_shell_history.
  destruct (od_get shell (history_files e)) as [history_file|]; [|reflexivity].
  intros Hnone. rewrite (exists_missing _ _ Hnone), orb_true_r. reflexivity.
Qed.

(** C9.  When the shell is not a known one or its history file does not
    exist, [parse_shell_history] raises [FileNotFoundError] with a
    message that names the shell, before any generator runs;
    [analyze_commands] lets it through with the analyzer untouched and
    nothing printed; and [main] ends with exit status 1 and an empty
    standard output, [generate_report] never being called. *)
Theorem missing_history_is_fatal (e : env) (year : option Z) (shell : string) :
  history_file_missing e shell ->
  let not_found := FileNotFoundError ("History file not found for " +:+ shell) in
  (forall k, parse_shell_history e k shell = Raise not_found)
  /\ (forall self k, analyze_commands self e k shell = (self, [], Some not_found))
  /\ main e year shell
     = {| stdout := []; uncaught := Some not_found; exit_status := 1 |}.
Proof.
  intros Hmissing not_found.
  assert (Hparse : forall k, parse_shell_history e k shell = Raise not_found).
  { intros k. apply parse_shell_history_missing, Hmissing. }
  assert (Hanalyze : forall self k,
             analyze_commands self e k shell = (self, [], Some not_found)).
  { intros self k. unfold analyze_commands. rewrite Hparse. reflexivity. }
  repeat split; [exact Hparse|exact Hanalyze|].
  unfold main. destruct (init e year) as [analyzer k].
  rewrite Hanalyze. reflexivity.
Qed.

Lemma missing_history_is_fatal_witness :
  history_file_missing (sample_env "") "tcsh"
  /\ history_file_missing (sample_env "") "bash"
  /\ main (sample_env "") (Some 2023) "tcsh"
     = {| stdout := [];
          uncaught := Some (FileNotFoundError "History file not found for tcsh");
          exit_status := 1 |}
  /\ main (sample_env "") None "bash"
     = {| stdout := [];
          uncaught := Some (FileNotFoundError "History file not found for bash");
          exit_status := 1 |}.
Proof.
  assert (Hshell : history_file_missing (sample_env "") "tcsh") by exact I.
  assert (Hfile : history_file_missing (sample_env "") "bash") by reflexivity.
  split; [exact Hshell|]. split; [exact Hfile|]. split.
  - apply (missing_history_is_fatal (sample_env "") (Some 2023) "tcsh" Hshell).
  - apply (missing_history_is_fatal (sample_env "") None "bash" Hfile).
Defined.

(** C10.  With shell [fish] and the fish history file in place,
    [parse_shell_history] passes the existence test and then raises
    [AttributeError] from [getattr], the class having no
    [_parse_fish_history]: the file is not parsed and the error is not
    the [FileNotFoundError] of the other fatal cases.  [main] ends with
    status 1 and prints nothing. *)
Theorem fish_history_raises_attribute_error (e : env) :
  is_Some (files e !! (home e +:+ "/.local/share/fish/fish_history")) ->
  (forall k, parse_shell_history e k "fish" = Raise no_fish_parser)
  /\ (forall year,
        main e year "fish"
        = {| stdout := []; uncaught := Some no_fish_parser; exit_status := 1 |}).
Proof.
  intros Hfile.
  assert (Hparse : forall k, parse_shell_history e k "fish" = Raise no_fish_parser).
  { intros k. unfold parse_shell_history. simpl.
    rewrite (exists_present _ _ Hfile).
    destruct (home e); reflexivity. }
  split; [exact Hparse|].
  intros year. unfold main. destruct (init e year) as [analyzer k].
  unfold analyze_commands. rewrite Hparse. reflexivity.
Qed.

Lemma fish_history_raises_attribute_error_witness :
  is_Some (files fish_env !! (home fish_env +:+ "/.local/share/fish/fish_history"))
  /\ parse_shell_history fish_env 0 "fish" = Raise no_fish_parser
  /\ main fish_env (Some 2023) "fish"
     = {| stdout := []; uncaught := Some no_fish_parser; exit_status := 1 |}.
Proof.
  assert (Hfile : is_Some (files fish_env
                             !! (home fish_env +:+ "/.local/share/fish/fish_history"))).
  { vm_compute. eexists. reflexivity. }
  pose proof (fish_history_raises_attribute_error fish_env Hfile) as [Hparse Hmain].
  split; [exact Hfile|]. split; [apply Hparse|apply Hmain].
Defined.

(** * Further properties of the code *)

(** ** Counting *)

Section Counting.

(** The tokenizer returns a list, whatever the command. *)
Lemma safe_split_command_ok command :
  exists tokens, _safe_split_command command = Ok tokens.
Proof.
  unfold _safe_split_command.
  pose proof (lex_value_error command Shlex.Blank "" false Shlex.Blank) as Hex.
  fold (Shlex.split command) in Hex.
  destruct (Shlex.split command) as [parts|[msg| | | |]]; simpl in Hex;
    try contradiction; eexists; reflexivity.
Qed.

Lemma process_command_total self command timestamp :
  total_commands (command_data (fst (_process_command self command timestamp)))
  = total_commands (command_data self)
    + (if has_base_command command then 1 else 0).
Proof.
  unfold has_base_command, _process_command.
  destruct (_safe_split_command command) as [[|base_command rest]|ex]; simpl; lia.
Qed.

Lemma analyze_records_total records :
  forall self,
    total_commands (command_data (fst (analyze_records self records)))
    = total_commands (command_data self)
      + Z.of_nat (length (List.filter (counted (year self)) records)).
Proof.
  induction records as [|[command timestamp] rest IH]; intros self.
  - simpl. lia.
  - cbn [analyze_records List.filter]. unfold counted at 1, in_year at 1.
    cbn [fst snd].
    destruct (Datetime.year timestamp =? year self); cbn [negb andb].
    + pose proof (process_command_year self command timestamp) as Hyear.
      pose proof (process_command_total self command timestamp) as Htotal.
      destruct (_process_command self command timestamp) as [self' out].
      cbn [fst] in Hyear, Htotal. specialize (IH self'). rewrite Hyear in IH.
      destruct (analyze_records self' rest) as [self'' out']. cbn [fst] in *.
      rewrite IH, Htotal.
      destruct (has_base_command command); [rewrite length_cons, Nat2Z.inj_succ|]; lia.
    + apply IH.
Qed.

End Counting.

(** X1.  After the loop of [analyze_commands], [total_commands] has grown
    by the number of records of the target year whose command has a
    base command; from a fresh analyzer it is exactly that number. *)
Theorem total_commands_counts_counted_records
    (e : env) (y : option Z) (self : t) (records : list record) :
  total_commands (command_data (fst (analyze_records self records)))
  = total_commands (command_data self)
    + Z.of_nat (length (List.filter (counted (year self)) records))
  /\ total_commands (command_data (fst (analyze_records (fst (init e y)) records)))
     = Z.of_nat (length (List.filter (counted (year (fst (init e y)))) records)).
Proof.
  split; [apply analyze_records_total|].
  rewrite analyze_records_total.
  unfold init. destruct y as [y|]; [destruct (y =? 0)|]; simpl; lia.
Qed.

Section Buckets.

Context {K : Type} `{EqDecision K}.

(** A [defaultdict] update that raises the measure of one entry by one
    raises the sum of the measures by one. *)
Lemma od_update_measure {V : Type} (g : V -> Z) (f : V -> V) (dflt : V)
    (k : K) (d : odict K V) :
  g dflt = 0 ->
  (forall v, g (f v) = g v + 1) ->
  fold_right Z.add 0 (map (fun item => g (snd item)) (od_update f dflt k d))
  = fold_right Z.add 0 (map (fun item => g (snd item)) d) + 1.
Proof.
  intros Hdflt Hstep. induction d as [|[k' v] d IH]; simpl.
  - rewrite Hstep, Hdflt. lia.
  - case_decide; simpl; [rewrite Hstep|rewrite IH]; lia.
Qed.

Lemma od_update_values_Forall {V : Type} (P : V -> Prop) (f : V -> V) (dflt : V)
    (k : K) (d : odict K V) :
  P (f dflt) ->
  (forall v, P v -> P (f v)) ->
  Forall (fun item => P (snd item)) d ->
  Forall (fun item => P (snd item)) (od_update f dflt k d).
Proof.
  intros Hdflt Hstep. induction 1 as [|[k' v] d Hx Hd IH]; simpl in *.
  - repeat constructor. exact Hdflt.
  - case_decide; constructor; simpl; auto.
Qed.

End Buckets.

Lemma init_buckets_agree e y : buckets_agree (command_data (fst (init e y))).
Proof.
  unfold init. destruct y as [y|]; [destruct (y =? 0)|]; simpl.
  all: repeat split; try reflexivity; constructor.
Qed.

Lemma process_command_buckets_agree self command timestamp :
  buckets_agree (command_data self) ->
  buckets_agree (command_data (fst (_process_command self command timestamp))).
Proof.
  intros Hinv. unfold _process_command.
  destruct (_safe_split_command command) as [[|base_command rest]|ex]; simpl;
    try exact Hinv.
  destruct Hinv as (Hw & Hh & Hd & Hm & Hmonths & Nw & Nh & Nd & Nm).
  repeat split; simpl.
  - rewrite od_sum_incr. lia.
  - rewrite od_sum_incr. lia.
  - rewrite od_sum_incr. lia.
  - unfold month_total in *. rewrite (od_update_measure count); [lia|reflexivity|].
    intros v. reflexivity.
  - apply (od_update_values_Forall
             (fun m => count m = od_sum (commands m) /\ NoDup (od_keys (commands m))));
      [| |exact Hmonths].
    + simpl. split; [reflexivity|]. repeat constructor. apply not_elem_of_nil.
    + intros m [Hcount Hkeys]. simpl. split.
      * rewrite od_sum_incr. lia.
      * apply od_keys_update_NoDup, Hkeys.
  - apply od_keys_update_NoDup, Nw.
  - apply od_keys_update_NoDup, Nh.
  - apply od_keys_update_NoDup, Nd.
  - apply od_keys_update_NoDup, Nm.
Qed.

Lemma analyze_records_buckets_agree records :
  forall self,
    buckets_agree (command_data self) ->
    buckets_agree (command_data (fst (analyze_records self records))).
Proof.
  induction records as [|[command timestamp] rest IH]; intros self Hinv; simpl.
  - exact Hinv.
  - destruct (negb (Datetime.year timestamp =? year self)); [apply IH, Hinv|].
    pose proof (process_command_buckets_agree self command timestamp Hinv) as Hstep.
    destruct (_process_command self command timestamp) as [self' out].
    specialize (IH self' Hstep).
    destruct (analyze_records self' rest) as [self'' out']. exact IH.
Qed.

(** X2.  Every bucket accounts for every counted command exactly once,
    after any stream: the weekday, hour, day-of-year and month counts
    each sum to [total_commands], each month's count is the sum of its
    per-command tallies, and no dictionary has a repeated key. *)
Theorem buckets_sum_to_total (e : env) (y : option Z) (records : list record) :
  buckets_agree (command_data (fst (analyze_records (fst (init e y)) records))).
Proof. apply analyze_records_buckets_agree, init_buckets_agree. Qed.

(** ** What the loop never does *)

Lemma process_command_silent self command timestamp :
  snd (_process_command self command timestamp) = [].
Proof.
  unfold _process_command.
  destruct (safe_split_command_ok command) as [tokens ->].
  destruct tokens; reflexivity.
Qed.

Lemma analyze_records_silent records :
  forall self, snd (analyze_records self records) = [].
Proof.
  induction records as [|[command timestamp] rest IH]; intros self; simpl.
  - reflexivity.
  - destruct (negb (Datetime.year timestamp =? year self)); [apply IH|].
    pose proof (process_command_silent self command timestamp) as Hout.
    destruct (_process_command self command timestamp) as [self' out].
    specialize (IH self').
    destruct (analyze_records self' rest) as [self'' out'].
    simpl in *. subst. reflexivity.
Qed.

(** X3.  The handler of [_process_command] is never entered: the only
    call of the [try] block that can raise is the tokenizer, which
    catches its own [ValueError].  So no command makes [_process_command]
    print a warning, and [analyze_commands] prints nothing at all,
    whatever the shell, the history and the clock. *)
Theorem analyze_commands_prints_nothing
    (self : t) (e : env) (k : nat) (shell : string) :
  (forall command timestamp, snd (_process_command self command timestamp) = [])
  /\ snd (fst (analyze_commands self e k shell)) = [].
Proof.
  split; [intros; apply process_command_silent|].
  unfold analyze_commands.
  destruct (parse_shell_history e k shell) as [[records raised]|ex]; [|reflexivity].
  pose proof (analyze_records_silent records self) as Hout.
  destruct (analyze_records self records) as [self' out]. exact Hout.
Qed.

(** X4.  The loop is incremental: analyzing a stream cut in two pieces
    is analyzing the first piece and then the second from the state
    the first one left. *)
Theorem analyze_records_app (self : t) (first second : list record) :
  analyze_records self (first ++ second)
  = let (self', out) := analyze_records self first in
    let (self'', out') := analyze_records self' second in
    (self'', (out ++ out')%list).
Proof.
  revert self. induction first as [|[command timestamp] rest IH]; intros self; simpl.
  - destruct (analyze_records self second). reflexivity.
  - destruct (negb (Datetime.year timestamp =? year self)); [apply IH|].
    destruct (_process_command self command timestamp) as [self1 out1].
    rewrite IH.
    destruct (analyze_records self1 rest) as [self2 out2].
    destruct (analyze_records self2 second) as [self3 out3].
    rewrite app_assoc. reflexivity.
Qed.

(** ** The tokenizer on plain and on broken commands *)

Section PlainCommands.

Lemma snoc_not_empty s c : is_empty (snoc s c) = false.
Proof. destruct s; reflexivity. Qed.

Lemma plain_chars c :
  plain c = true -> Shlex.in_quotes c = false /\ Shlex.in_escape c = false.
Proof.
  unfold plain. intros H. apply andb_true_iff in H as [Hq He].
  apply negb_true_iff in Hq, He. auto.
Qed.

Lemma lex_plain s :
  all_chars plain s = true ->
  (forall escapedstate,
      Shlex.lex s Shlex.Blank "" false escapedstate
      = Ok (runs Shlex.in_whitespace s ""))
  /\ (forall token escapedstate,
        is_empty token = false ->
        Shlex.lex s Shlex.Word token false escapedstate
        = Ok (runs Shlex.in_whitespace s token)).
Proof.
  induction s as [|c s IH]; intros Hplain.
  - split; [reflexivity|]. intros token escapedstate Htoken. simpl.
    unfold Shlex.emit. rewrite Htoken. reflexivity.
  - simpl in Hplain. apply andb_true_iff in Hplain as [Hc Hs].
    destruct (IH Hs) as [IHblank IHword].
    destruct (plain_chars c Hc) as [Hq He]. split.
    + intros escapedstate. simpl.
      destruct (Shlex.in_whitespace c); simpl; [apply IHblank|].
      rewrite He, Hq. apply (IHword (String c "")). reflexivity.
    + intros token escapedstate Htoken. simpl. rewrite Htoken.
      destruct (Shlex.in_whitespace c); simpl.
      * unfold Shlex.emit. rewrite Htoken, andb_false_r, IHblank. reflexivity.
      * rewrite Hq, He. apply IHword, snoc_not_empty.
Qed.

Lemma before_first_quote_prefix s :
  exists rest,
    s = before_first_quote s +:+ rest
    /\ match rest with
       | EmptyString => True
       | String q _ => Shlex.in_quotes q = true
       end.
Proof.
  induction s as [|c s (rest & Heq & Hrest)]; simpl.
  - exists "". split; [reflexivity|exact I].
  - destruct (Shlex.in_quotes c) eqn:Hc.
    + exists (String c s). split; [reflexivity|exact Hc].
    + exists rest. split; [|exact Hrest].
      change (String c s = String c (before_first_quote s +:+ rest)).
      f_equal. exact Heq.
Qed.

End PlainCommands.

(** X5.  On a command with no quote and no backslash, the tokenizer is
    a plain split on blanks, tabs, carriage returns and newlines: the
    tokens are the maximal runs of other characters, in order. *)
Theorem safe_split_command_plain (command : string) :
  all_chars plain command = true ->
  _safe_split_command command = Ok (runs Shlex.in_whitespace command "").
Proof.
  intros Hplain. unfold _safe_split_command, Shlex.split.
  destruct (lex_plain command Hplain) as [-> _]. reflexivity.
Qed.

Lemma safe_split_command_plain_witness :
  all_chars plain "git  commit -a" = true
  /\ _safe_split_command "git  commit -a" = Ok [ "git"; "commit"; "-a" ].
Proof.
  assert (Hplain : all_chars plain "git  commit -a" = true) by reflexivity.
  split; [exact Hplain|]. exact (safe_split_command_plain "git  commit -a" Hplain).
Defined.

(** X6.  When [shlex.split] raises, the fallback does not only drop the
    unterminated fragment: the substitution deletes everything from the
    first quote character of the command to its end, closed quotations
    included, and the tokens are the whitespace-separated words of the
    text before that first quote. *)
Theorem fallback_keeps_text_before_first_quote (command : string) :
  raises (Shlex.split command) = true ->
  _safe_split_command command = Ok (str_split (before_first_quote command))
  /\ exists rest,
       command = before_first_quote command +:+ rest
       /\ match rest with
          | EmptyString => True
          | String q _ => Shlex.in_quotes q = true
          end.
Proof.
  intros Hraises. split; [|apply before_first_quote_prefix].
  unfold _safe_split_command.
  pose proof (lex_value_error command Shlex.Blank "" false Shlex.Blank) as Hex.
  fold (Shlex.split command) in Hex.
  destruct (Shlex.split command) as [parts|[msg| | | |]]; simpl in Hex, Hraises;
    try contradiction; try discriminate.
  rewrite sub_before_first_quote. reflexivity.
Qed.

Lemma fallback_keeps_text_before_first_quote_witness :
  let command := "grep 'a b' file | sed 's/x/y" in
  raises (Shlex.split command) = true
  /\ _safe_split_command command = Ok [ "grep" ].
Proof.
  intros command.
  assert (Hraises : raises (Shlex.split command) = true) by reflexivity.
  split; [exact Hraises|].
  exact (proj1 (fallback_keeps_text_before_first_quote command Hraises)).
Defined.

(** ** The parsers *)

Section Strings.




Lemma split_sep_length sep s :
  forall cur, length (split_sep sep s cur) = S (count_char sep s).
Proof.
  induction s as [|c s IH]; intros cur; simpl; [reflexivity|].
  destruct (Ascii.eqb c sep); simpl; rewrite IH; reflexivity.
Qed.


Lemma str_rev_involutive s : str_rev (str_rev s) = s.
Proof.
  unfold str_rev. rewrite list_ascii_of_string_of_list_ascii, rev_involutive.
  apply string_of_list_ascii_of_string.
Qed.

Lemma last_char_snoc l c : last_char (string_of_list_ascii (l ++ [c])) = Some c.
Proof.
  induction l as [|a l IH]; simpl; [reflexivity|].
  destruct (string_of_list_ascii (l ++ [c])); [discriminate|exact IH].
Qed.

Lemma last_char_rev s : last_char (str_rev s) = first_char s.
Proof.
  destruct s as [|c s]; [reflexivity|].
  unfold str_rev. simpl. apply last_char_snoc.
Qed.

Lemma first_char_rev s : first_char (str_rev s) = last_char s.
Proof. rewrite <- last_char_rev, str_rev_involutive. reflexivity. Qed.

Lemma lstrip_first s : not_space (first_char (lstrip s)).
Proof.
  induction s as [|c s IH]; simpl; [exact I|].
  destruct (isspace c) eqn:Hc; [exact IH|]. simpl. exact Hc.
Qed.

Lemma lstrip_last s : lstrip s = "" \/ last_char (lstrip s) = last_char s.
Proof.
  induction s as [|c s IH]; simpl; [left; reflexivity|].
  destruct (isspace c); [|right; reflexivity].
  destruct IH as [Hnil|Hlast]; [left; exact Hnil|].
  destruct s as [|c' s]; [left; reflexivity|]. right. exact Hlast.
Qed.

Lemma str_strip_trimmed s : trimmed (str_strip s).
Proof.
  unfold str_strip, rstrip, trimmed. rewrite first_char_rev, last_char_rev.
  split; [|apply lstrip_first].
  destruct (lstrip_last (str_rev (lstrip s))) as [ -> | -> ]; [exact I|].
  rewrite last_char_rev. apply lstrip_first.
Qed.

End Strings.




Lemma zsh_skipped_line e line rest :
  zsh_skipped line ->
  _parse_zsh_lines e (line :: rest) = _parse_zsh_lines e rest.
Proof.
  intros [Hcolon|Hcount]; simpl.
  - rewrite Hcolon. reflexivity.
  - destruct (startswith ":" line); [|reflexivity].
    unfold str_split_on. rewrite split_sep_length.
    destruct (Z.leb_spec 3 (Z.of_nat (S (count_char ";" line)))); [lia|reflexivity].
Qed.

(** X8.  A history whose lines all lack the leading colon or have fewer
    than two semicolons yields no record and raises nothing.  The
    extended format that zsh writes, one semicolon between the header
    and the command, is of that kind unless the command itself has a
    semicolon. *)
Theorem zsh_history_without_second_semicolon (e : env) (lines : list string) :
  Forall zsh_skipped lines ->
  _parse_zsh_lines e lines = ([], None).
Proof.
  induction 1 as [|line rest Hline _ IH]; [reflexivity|].
  rewrite zsh_skipped_line; assumption.
Qed.

Lemma zsh_history_without_second_semicolon_witness :
  let lines := [ ": 1700000000:0;git status"; "make"; ": 1700000100:5;ls -la" ] in
  Forall zsh_skipped lines
  /\ _parse_zsh_lines (sample_env "") lines = ([], None).
Proof.
  intros lines.
  assert (Hlines : Forall zsh_skipped lines).
  { repeat constructor; first [ left; reflexivity | right; simpl; lia ]. }
  split; [exact Hlines|].
  exact (zsh_history_without_second_semicolon (sample_env "") lines Hlines).
Defined.

(** X9.  The zsh generator stops at the first line that raises: the
    records of the lines before it are yielded, nothing of the lines
    after it is; and with no such line, the records of two pieces of a
    history are those of the first followed by those of the second. *)
Theorem zsh_lines_app (e : env) (first second : list string) :
  _parse_zsh_lines e (first ++ second)
  = match _parse_zsh_lines e first with
    | (records, Some ex) => (records, Some ex)
    | (records, None) =>
        ((records ++ fst (_parse_zsh_lines e second))%list,
         snd (_parse_zsh_lines e second))
    end.
Proof.
  induction first as [|line rest IH]; simpl.
  - destruct (_parse_zsh_lines e second). reflexivity.
  - destruct (startswith ":" line); [|exact IH].
    destruct (3 <=? Z.of_nat (length (str_split_on ";" line))); [|exact IH].
    destruct (bind _ _) as [timestamp|ex]; [|reflexivity].
    rewrite IH. unfold yield.
    destruct (_parse_zsh_lines e rest) as [records [ex|]]; reflexivity.
Qed.

Lemma bash_lines_records e lines :
  forall k,
    _parse_bash_lines e k lines
    = (let commands :=
         List.filter (fun c => negb (is_empty c)) (map str_strip lines) in
       combine commands (map (clock e) (seq k (length commands))), None).
Proof.
  induction lines as [|line rest IH]; intros k; simpl; [reflexivity|].
  destruct (is_empty (str_strip line)); simpl; rewrite IH; reflexivity.
Qed.


Lemma bash_lines_trimmed e lines :
  forall k,
    Forall (fun r => trimmed (fst r) /\ is_empty (fst r) = false)
      (fst (_parse_bash_lines e k lines)).
Proof.
  induction lines as [|line rest IH]; intros k; simpl; [constructor|].
  destruct (is_empty (str_strip line)) eqn:Hline; simpl; [apply IH|].
  constructor; [|apply IH]. simpl. split; [apply str_strip_trimmed|exact Hline].
Qed.

Lemma zsh_lines_trimmed e lines :
  Forall (fun r => trimmed (fst r)) (fst (_parse_zsh_lines e lines)).
Proof.
  induction lines as [|line rest IH]; simpl; [constructor|].
  destruct (startswith ":" line); [|exact IH].
  destruct (3 <=? Z.of_nat (length (str_split_on ";" line))); [|exact IH].
  destruct (bind _ _) as [timestamp|ex]; simpl; [|constructor].
  constructor; [apply str_strip_trimmed|exact IH].
Qed.

(** X11.  Every command a parser yields is trimmed: its first and its
    last character are not whitespace.  Those of the bash parser are
    not empty either; the zsh parser can yield an empty command. *)
Theorem parsed_commands_are_trimmed (e : env) (k : nat) (lines : list string) :
  Forall (fun r => trimmed (fst r) /\ is_empty (fst r) = false)
    (fst (_parse_bash_lines e k lines))
  /\ Forall (fun r => trimmed (fst r)) (fst (_parse_zsh_lines e lines))
  /\ fst (_parse_zsh_lines (sample_env "") [ ":0;1700000000; " ])
     = [ ("", Datetime.mk_datetime 2023 11 14 22 13 20 0) ].
Proof.
  split; [apply bash_lines_trimmed|]. split; [apply zsh_lines_trimmed|].
  vm_compute. reflexivity.
Qed.

(** ** From the history file to the exit status *)

Section Pipeline.

Lemma parse_shell_history_bash e k content :
  files e !! (home e +:+ "/.bash_history") = Some content ->
  parse_shell_history e k "bash" = Ok (_parse_bash_lines e k (readlines content)).
Proof.
  intros Hfile. unfold parse_shell_history. simpl.
  rewrite exists_present by (rewrite Hfile; eexists; reflexivity).
  replace (is_empty (home e +:+ "/.bash_history")) with false
    by (destruct (home e); reflexivity).
  simpl. unfold _parse_bash_history. rewrite Hfile. reflexivity.
Qed.


Lemma main_of_parsed e y shell parsed :
  parse_shell_history e (snd (init e y)) shell = Ok parsed ->
  main e y shell = report_run (fst (init e y)) parsed.
Proof.
  intros Hparse. unfold main, report_run, analyze_commands.
  destruct (init e y) as [analyzer k]. simpl in *. rewrite Hparse.
  destruct parsed as [records raised]. simpl.
  pose proof (analyze_records_silent records analyzer) as Hout.
  destruct (analyze_records analyzer records) as [analyzer' out].
  simpl in *. subst out.
  destruct raised as [ex|]; [reflexivity|].
  destruct (generate_report analyzer') as [out [u|ex]]; reflexivity.
Qed.

Lemma analyze_records_none_in_year records :
  forall self,
    Forall (fun r => in_year (year self) r = false) records ->
    analyze_records self records = (self, []).
Proof.
  induction 1 as [|[command timestamp] rest Hr _ IH]; simpl; [reflexivity|].
  unfold in_year in Hr. simpl in Hr. rewrite Hr. simpl. exact IH.
Qed.

Lemma bash_lines_clock e lines :
  forall k,
    Forall (fun r => exists i, snd r = clock e i) (fst (_parse_bash_lines e k lines)).
Proof.
  induction lines as [|line rest IH]; intros k; simpl; [constructor|].
  destruct (is_empty (str_strip line)); simpl; [apply IH|].
  constructor; [|apply IH]. exists k. reflexivity.
Qed.

End Pipeline.




(** X14.  The bash parser stamps every command with the current time,
    so a target year that the clock never shows admits no record at
    all: whatever the history holds, the run prints the empty report
    and ends with [ValueError] from [max] and status 1. *)
Theorem bash_other_year_counts_nothing (e : env) (y : Z) (content : string) :
  y <> 0 ->
  files e !! (home e +:+ "/.bash_history") = Some content ->
  (forall i, Datetime.year (clock e i) <> y) ->
  main e (Some y) "bash"
  = {| stdout := empty_report y; uncaught := Some empty_max; exit_status := 1 |}.
Proof.
  intros Hy Hfile Hclock.
  rewrite (main_of_parsed e (Some y) "bash" _ (parse_shell_history_bash e _ content Hfile)).
  unfold report_run. rewrite bash_lines_records at 1. cbn [snd].
  assert (Hinit : init e (Some y)
                  = ({| year := y; command_data := command_data (fst (init e None)) |},
                     0%nat)).
  { unfold init. destruct (Z.eqb_spec y 0); [contradiction|reflexivity]. }
  rewrite Hinit. cbn [fst snd].
  rewrite analyze_records_none_in_year; [reflexivity|].
  eapply Forall_impl; [apply bash_lines_clock|].
  intros [command timestamp] [i Hi]. simpl in *. subst timestamp.
  unfold in_year. simpl. apply Z.eqb_neq, Hclock.
Qed.


Lemma bash_other_year_counts_nothing_witness :
  let content := "git status" +:+ newline +:+ "ls -la" +:+ newline in
  main (bash_env content) (Some 2022) "bash"
  = {| stdout := empty_report 2022; uncaught := Some empty_max; exit_status := 1 |}.
Proof.
  intros content.
  apply (bash_other_year_counts_nothing (bash_env content) 2022 content).
  - discriminate.
  - reflexivity.
  - intros i. simpl. discriminate.
Defined.

(** ** The layout of the report *)

Section Layout.

Lemma for_each_lines {A : Type} (l : list A) (body : A -> io unit)
    (g : A -> list line) :
  Forall (fun x => body x = (g x, Ok tt)) l ->
  for_each l body = (flat_map g l, Ok tt).
Proof.
  induction 1 as [|x l Hx _ IH]; simpl; [reflexivity|].
  rewrite Hx, io_bind_ok, IH. reflexivity.
Qed.

Lemma getitem_nth {A : Type} (l : list A) (i : Z) (dflt : A) :
  0 <= i < Z.of_nat (length l) ->
  getitem l i = Ok (nth (Z.to_nat i) l dflt).
Proof.
  intros Hi. destruct (getitem_in_range l i Hi) as (a & -> & Hnth).
  f_equal. symmetry. apply nth_error_nth, Hnth.
Qed.

Lemma generate_report_ready self :
  report_ready (command_data self) ->
  exists weekday hour,
    most_active (commands_by_weekday (command_data self)) = Ok weekday
    /\ most_active (commands_by_hour (command_data self)) = Ok hour
    /\ generate_report self = (report_lines self weekday hour, Ok tt).
Proof.
  intros (Hmonths & Hdays & Hweekday & Hhour).
  destruct (most_active_first_maximum _ Hweekday) as (weekday & Hw & Hwmax).
  destruct (most_active_first_maximum _ Hhour) as (hour & Hh & _).
  exists weekday, hour. split; [exact Hw|]. split; [exact Hh|].
  assert (Hname : getitem weekdays weekday = Ok (weekday_name weekday)).
  { apply getitem_nth.
    destruct Hwmax as (before & v & after & Heq & _).
    rewrite Heq in Hdays. apply Forall_app in Hdays as [_ Hdays].
    apply Forall_cons in Hdays as [Hk _]. simpl in *. lia. }
  set (active_months :=
         take 3 (sorted_desc (fun x => count (snd x))
                   (commands_by_month (command_data self)))).
  assert (Hactive : Forall (fun item => 1 <= fst item <= 12) active_months).
  { apply Forall_take, sorted_desc_Forall, Hmonths. }
  assert (Hmonth : forall month, 1 <= month <= 12 ->
            getitem month_names (month - 1) = Ok (month_name month)).
  { intros month Hm. apply getitem_nth. simpl. lia. }
  assert (Hout2 :
            for_each active_months
              (fun '(month, m) =>
                 do name <- lift (getitem month_names (month - 1));
                 print (MonthCount name (count m)))
            = (flat_map (fun item =>
                           [ MonthCount (month_name (fst item)) (count (snd item)) ])
                 active_months, Ok tt)).
  { apply for_each_lines. eapply Forall_impl; [exact Hactive|].
    intros [month m] Hm. simpl in Hm. unfold lift. rewrite (Hmonth month Hm).
    reflexivity. }
  assert (Hout3 :
            for_each active_months
              (fun '(month, m) =>
                 do name <- lift (getitem month_names (month - 1));
                 do_ print (MonthName name);
                 for_each (take 3 (sorted_desc snd (commands m)))
                   (fun '(cmd, n) => print (MonthCommandCount cmd n)))
            = (flat_map (fun item =>
                           MonthName (month_name (fst item))
                           :: map (fun c => MonthCommandCount (fst c) (snd c))
                                (take 3 (sorted_desc snd (commands (snd item)))))
                 active_months, Ok tt)).
  { apply for_each_lines. eapply Forall_impl; [exact Hactive|].
    intros [month m] Hm. simpl in Hm. unfold lift. rewrite (Hmonth month Hm). simpl.
    rewrite (for_each_print _ _ (fun c => MonthCommandCount (fst c) (snd c)));
      [reflexivity|intros [cmd c]; reflexivity]. }
  unfold generate_report, report_lines. cbv zeta. fold active_months.
  rewrite Hout2, Hout3.
  rewrite (for_each_print _ _ (fun item => CommandCount (fst item) (snd item)));
    [|intros [cmd c]; reflexivity].
  assert (Htail :
            (do most_active_weekday <-
               lift (most_active (commands_by_weekday (command_data self)));
             do name <- lift (getitem weekdays most_active_weekday);
             do_ print (MostActiveDay name);
             do most_active_hour <-
               lift (most_active (commands_by_hour (command_data self)));
             print (MostActiveHour most_active_hour))
            = ([MostActiveDay (weekday_name weekday); MostActiveHour hour], Ok tt)).
  { unfold lift. rewrite Hw. simpl. rewrite Hname. simpl. rewrite Hh. reflexivity. }
  rewrite Htail. unfold print. simpl.
  repeat first [rewrite <- app_assoc | rewrite <- app_comm_cons]. reflexivity.
Qed.

Lemma process_command_skipped self command timestamp :
  has_base_command command = false ->
  fst (_process_command self command timestamp) = self.
Proof.
  unfold has_base_command, _process_command.
  destruct (_safe_split_command command) as [[|base_command rest]|ex];
    try discriminate; reflexivity.
Qed.

Lemma analyze_records_nothing_counted records :
  forall self,
    List.filter (counted (year self)) records = [] ->
    fst (analyze_records self records) = self.
Proof.
  induction records as [|[command timestamp] rest IH]; intros self Hnone;
    [reflexivity|].
  simpl in *. unfold counted, in_year in Hnone. simpl in Hnone.
  destruct (Datetime.year timestamp =? year self); simpl in *; [|apply IH, Hnone].
  destruct (has_base_command command) eqn:Hbase; [discriminate|].
  pose proof (process_command_skipped self command timestamp Hbase) as Hsame.
  destruct (_process_command self command timestamp) as [self' out].
  simpl in Hsame. subst self'. specialize (IH self Hnone).
  destruct (analyze_records self rest) as [self'' out']. exact IH.
Qed.

Lemma generate_report_fresh e y :
  generate_report (fst (init e y))
  = (empty_report (year (fst (init e y))), Raise empty_max).
Proof. unfold init. destruct y as [y|]; [destruct (y =? 0)|]; reflexivity. Qed.

End Layout.

(** X15.  On a state with calendar months and weekdays and something in
    the weekday and hour buckets, [generate_report] raises nothing and
    prints exactly: the header, the two totals, the title and at most
    ten command lines in descending count, the title and at most three
    month lines, the title and for each of those months its name and at
    most three command lines, then the most active day and hour. *)
Theorem generate_report_layout (self : t) :
  report_ready (command_data self) ->
  exists weekday hour,
    most_active (commands_by_weekday (command_data self)) = Ok weekday
    /\ most_active (commands_by_hour (command_data self)) = Ok hour
    /\ generate_report self = (report_lines self weekday hour, Ok tt).
Proof. apply generate_report_ready. Qed.

Lemma generate_report_layout_witness :
  let self := fst (analyze_records (fst (init (sample_env "") (Some 2023)))
                     thursday_then_monday) in
  report_ready (command_data self)
  /\ generate_report self = (report_lines self 3 10, Ok tt).
Proof.
  intros self.
  assert (Hready : report_ready (command_data self)).
  { vm_compute. repeat split; repeat constructor; discriminate. }
  split; [exact Hready|].
  destruct (generate_report_layout self Hready) as (weekday & hour & Hw & Hh & Hreport).
  assert (weekday = 3) as -> by (vm_compute in Hw; congruence).
  assert (hour = 10) as -> by (vm_compute in Hh; congruence).
  exact Hreport.
Defined.

(** X16.  After a fresh analyzer has consumed a stream of records with
    calendar months, the report completes exactly when at least one
    record was counted: with none, it prints the empty report and
    raises [ValueError] from [max]; with one or more, it returns. *)
Theorem report_completes_iff_counted
    (e : env) (y : option Z) (records : list record) :
  Forall calendar_month records ->
  let self := fst (analyze_records (fst (init e y)) records) in
  let counted_records := List.filter (counted (year (fst (init e y)))) records in
  (counted_records = [] ->
   generate_report self = (empty_report (year self), Raise empty_max))
  /\ (counted_records <> [] -> snd (generate_report self) = Ok tt).
Proof.
  intros Hcal self counted_records. split.
  - intros Hnone. unfold self.
    rewrite (analyze_records_nothing_counted records _ Hnone).
    apply generate_report_fresh.
  - intros Hsome.
    destruct (generate_report_ready self) as (weekday & hour & _ & _ & ->);
      [|reflexivity].
    apply analyze_records_report_ready; assumption.
Qed.

Lemma report_completes_iff_counted_witness :
  let old := ("git status", Datetime.mk_datetime 2022 3 1 10 0 0 0) in
  let new := ("ls -la", Datetime.mk_datetime 2023 3 1 10 0 0 0) in
  let fresh := fst (init (sample_env "") (Some 2023)) in
  Forall calendar_month [ old; new ]
  /\ generate_report (fst (analyze_records fresh [ old ]))
     = (empty_report 2023, Raise empty_max)
  /\ snd (generate_report (fst (analyze_records fresh [ old; new ]))) = Ok tt.
Proof.
  intros old new fresh.
  assert (Hcal : Forall calendar_month [ old; new ]).
  { repeat constructor; unfold calendar_month; simpl; lia. }
  split; [exact Hcal|]. split.
  - assert (Hold : Forall calendar_month [ old ]).
    { repeat constructor; unfold calendar_month; simpl; lia. }
    apply (proj1 (report_completes_iff_counted (sample_env "") (Some 2023) [ old ]
                    Hold)).
    reflexivity.
  - apply (proj2 (report_completes_iff_counted (sample_env "") (Some 2023) [ old; new ]
                    Hcal)).
    vm_compute. discriminate.
Defined.

(** ** The rankings of the report *)

Section Ranking.

Context {A : Type} (key : A -> Z).

Lemma insert_desc_perm x l : insert_desc key x l ≡ₚ x :: l.
Proof.
  induction l as [|y l IH]; simpl; [reflexivity|].
  destruct (key x <? key y); [|reflexivity].
  rewrite IH. apply Permutation_swap.
Qed.

Lemma sorted_desc_perm l : sorted_desc key l ≡ₚ l.
Proof.
  induction l as [|x l IH]; simpl; [reflexivity|].
  rewrite insert_desc_perm, IH. reflexivity.
Qed.

Lemma insert_desc_descending x l :
  descending key l -> descending key (insert_desc key x l).
Proof.
  induction l as [|y l IH]; simpl.
  - intros _. split; [constructor|exact I].
  - intros [Hy Hl]. destruct (Z.ltb_spec (key x) (key y)) as [Hlt|Hge]; simpl.
    + split; [|apply IH, Hl].
      rewrite insert_desc_perm. constructor; [lia|exact Hy].
    + repeat split; try assumption.
      constructor; [exact Hge|].
      eapply Forall_impl; [exact Hy|]. simpl. intros z Hz. lia.
Qed.

Lemma sorted_desc_descending l : descending key (sorted_desc key l).
Proof.
  induction l as [|x l IH]; simpl; [exact I|].
  apply insert_desc_descending, IH.
Qed.

Lemma insert_desc_with_key v x l :
  with_key key v (insert_desc key x l) = with_key key v (x :: l).
Proof.
  unfold with_key. induction l as [|y l IH]; simpl; [reflexivity|].
  destruct (Z.ltb_spec (key x) (key y)) as [Hlt|Hge]; [|reflexivity].
  simpl. rewrite IH. simpl.
  destruct (Z.eqb_spec (key x) v), (Z.eqb_spec (key y) v); try reflexivity. lia.
Qed.

Lemma sorted_desc_with_key v l :
  with_key key v (sorted_desc key l) = with_key key v l.
Proof.
  induction l as [|x l IH]; simpl; [reflexivity|].
  rewrite insert_desc_with_key. unfold with_key in *. simpl. rewrite IH. reflexivity.
Qed.

Lemma descending_app l1 l2 :
  descending key (l1 ++ l2) ->
  Forall (fun x => Forall (fun y => key y <= key x) l2) l1.
Proof.
  induction l1 as [|x l1 IH]; simpl; [constructor|].
  intros [Hx Hrest]. constructor; [|apply IH, Hrest].
  apply Forall_app in Hx as [_ Hx]. exact Hx.
Qed.

End Ranking.

(** X17.  The rankings of the report ([sorted] with [reverse=True],
    then a slice) are right: the sorted list has the items of the
    dictionary, each once, in descending order of the key; items with
    equal keys keep the order of the dictionary, so ties go to the
    item inserted first; and no item cut off by the slice has a larger
    key than an item that is kept. *)
Theorem ranking_keeps_the_largest {A : Type} (key : A -> Z) (l : list A) (n : nat) :
  sorted_desc key l ≡ₚ l
  /\ descending key (sorted_desc key l)
  /\ (forall v, with_key key v (sorted_desc key l) = with_key key v l)
  /\ Forall (fun kept =>
               Forall (fun cut => key cut <= key kept) (drop n (sorted_desc key l)))
       (take n (sorted_desc key l)).
Proof.
  split; [apply sorted_desc_perm|].
  split; [apply sorted_desc_descending|].
  split; [intros v; apply sorted_desc_with_key|].
  apply descending_app. rewrite take_drop. apply sorted_desc_descending.
Qed.

(** X18.  After any stream, the number printed as unique commands is
    the number of entries of [total_command_count], that is, of
    distinct base commands counted. *)
Theorem unique_count_is_number_of_commands
    (e : env) (y : option Z) (records : list record) :
  let d := command_data (fst (analyze_records (fst (init e y)) records)) in
  size (unique_commands d) = length (total_command_count d).
Proof.
  intros d.
  destruct (analyze_records_invariant records (fst (init e y)) (init_invariant e y))
    as (_ & Hset & Hnodup).
  fold d in Hset, Hnodup. rewrite Hset, size_list_to_set by exact Hnodup.
  unfold od_keys. apply length_map.
Qed.

(** ** Which commands are dropped *)

Section Dropped.

Lemma emit_not_nil token quoted next :
  is_empty token = false \/ quoted = true ->
  Shlex.emit token quoted next <> Ok [].
Proof.
  unfold Shlex.emit. intros [Htoken|Hquoted].
  - rewrite Htoken, andb_false_r. destruct next; simpl; discriminate.
  - rewrite Hquoted. simpl. destruct next; simpl; discriminate.
Qed.

Lemma lex_under_way inp :
  forall state token quoted escapedstate,
    under_way state token quoted ->
    Shlex.lex inp state token quoted escapedstate <> Ok [].
Proof.
  unfold under_way.
  induction inp as [|c rest IH]; intros state token quoted escapedstate Hway.
  - destruct state; simpl; try discriminate.
    all: apply emit_not_nil; destruct Hway as [H|[H|H]]; auto; contradiction.
  - destruct state; simpl.
    + destruct Hway as [H|[H|H]]; [| |contradiction].
      * rewrite H. simpl. destruct (Shlex.in_whitespace c).
        -- apply emit_not_nil. auto.
        -- repeat case_match; apply IH; simpl; auto.
      * rewrite H, orb_true_r. destruct (Shlex.in_whitespace c).
        -- apply emit_not_nil. auto.
        -- repeat case_match; apply IH; simpl; auto.
    + destruct Hway as [H|[H|H]]; [| |contradiction].
      * rewrite H. simpl. destruct (Shlex.in_whitespace c).
        -- apply emit_not_nil. auto.
        -- repeat case_match; apply IH; simpl; auto using snoc_not_empty.
      * rewrite H, orb_true_r. destruct (Shlex.in_whitespace c).
        -- apply emit_not_nil. auto.
        -- repeat case_match; apply IH; simpl; auto.
    + repeat case_match; apply IH; simpl; auto.
    + apply IH. left. apply snoc_not_empty.
Qed.

Lemma lex_nil_blank inp :
  forall escapedstate,
    Shlex.lex inp Shlex.Blank "" false escapedstate = Ok [] ->
    all_chars Shlex.in_whitespace inp = true.
Proof.
  induction inp as [|c rest IH]; intros escapedstate; simpl; [reflexivity|].
  destruct (Shlex.in_whitespace c); simpl; [apply IH|].
  intros Hnil. exfalso. revert Hnil.
  repeat case_match; apply lex_under_way; unfold under_way; simpl; auto.
Qed.

Lemma split_ws_nil s :
  forall cur, split_ws s cur = [] <-> is_empty cur = true /\ all_chars isspace s = true.
Proof.
  induction s as [|c s IH]; intros cur; simpl.
  - destruct (is_empty cur); split; try discriminate; auto. intros [? _]. discriminate.
  - destruct (isspace c); simpl.
    + destruct (is_empty cur) eqn:Hcur.
      * rewrite IH. tauto.
      * split; [discriminate|]. intros [? _]. discriminate.
    + rewrite IH, snoc_not_empty. split; intros [? ?]; discriminate.
Qed.

End Dropped.

(** X19.  The commands that [_process_command] drops without counting
    are exactly these: the commands made only of blanks, tabs,
    carriage returns and newlines (the empty one included), and the
    commands on which [shlex.split] raises while the text before their
    first quote character is whitespace only, for instance a command
    that opens with a quotation it never closes. *)
Theorem dropped_commands (command : string) :
  has_base_command command = false
  <-> all_chars Shlex.in_whitespace command = true
      \/ (raises (Shlex.split command) = true
          /\ all_chars isspace (before_first_quote command) = true).
Proof.
  unfold has_base_command, _safe_split_command.
  pose proof (lex_value_error command Shlex.Blank "" false Shlex.Blank) as Hex.
  pose proof (lex_nil_blank command Shlex.Blank) as Hnil.
  pose proof (lex_blank_input command Shlex.Blank) as Hblank.
  fold (Shlex.split command) in Hex, Hnil, Hblank.
  destruct (Shlex.split command) as [[|token tokens]|[msg| | | |]];
    simpl in Hex |- *; try contradiction.
  - split; auto.
  - split; [discriminate|]. intros [Hall|[Hraises _]]; [|discriminate].
    specialize (Hblank Hall). discriminate.
  - rewrite sub_before_first_quote. unfold str_split.
    pose proof (split_ws_nil (before_first_quote command) "") as Hsplit.
    destruct (split_ws (before_first_quote command) "") as [|token tokens].
    + split; [|reflexivity]. intros _. right. split; [reflexivity|].
      apply Hsplit. reflexivity.
    + split; [discriminate|]. intros [Hall|[_ Hall]].
      * specialize (Hblank Hall). discriminate.
      * assert (token :: tokens = []) by (apply Hsplit; auto). discriminate.
Qed.

Lemma dropped_commands_witness :
  let quote := String Shlex.dquote "" in
  has_base_command (quote +:+ "never closed") = false
  /\ has_base_command (quote +:+ quote) = true
  /\ has_base_command "   " = false.
Proof.
  intros quote. split; [|split].
  - apply (proj2 (dropped_commands (quote +:+ "never closed"))).
    right. split; reflexivity.
  - reflexivity.
  - apply (proj2 (dropped_commands "   ")). left. reflexivity.
Defined.

(** ** Fatal and non-fatal ends of a run *)




(** X21.  [parse_shell_history] has four outcomes and no other: a
    generator, for [bash] and [zsh] only; [FileNotFoundError] with the
    message that names the shell; [AttributeError], for [fish] only. *)
Theorem parse_shell_history_outcomes (e : env) (k : nat) (shell : string) :
  match parse_shell_history e k shell with
  | Ok parsed =>
      (shell = "bash" /\ parsed = _parse_bash_history e k (expanduser e "~/.bash_history"))
      \/ (shell = "zsh" /\ parsed = _parse_zsh_history e k (expanduser e "~/.zsh_history"))
  | Raise (FileNotFoundError msg) => msg = "History file not found for " +:+ shell
  | Raise (AttributeError _) => shell = "fish"
  | Raise _ => False
  end.
Proof.
  unfold parse_shell_history, history_files. cbn [od_get].
  destruct (decide ("bash" = shell)) as [<-|_].
  { destruct (is_empty _ || negb _); [reflexivity|]. left. split; reflexivity. }
  destruct (decide ("zsh" = shell)) as [<-|_].
  { destruct (is_empty _ || negb _); [reflexivity|]. right. split; reflexivity. }
  destruct (decide ("fish" = shell)) as [<-|_]; [|reflexivity].
  destruct (is_empty _ || negb _); reflexivity.
Qed.

(** ** The sentinel is out of reach of the zsh parser *)

Section Sentinel.

Lemma ord2ymd_bounds ordinal :
  let '(y, m, d) := Datetime.ord2ymd ordinal in 1 <= m <= 12 /\ d <= 31.
Proof.
  unfold Datetime.ord2ymd. cbv zeta.
  set (n0 := (ordinal - 1) mod 146097).
  set (n1 := n0 mod 36524).
  set (n2 := n1 mod 1461).
  set (n := n2 mod 365).
  destruct ((n2 / 365 =? 4) || (n0 / 36524 =? 4)); [lia|].
  set (leapyear := (n2 / 365 =? 3) && (negb (n1 / 1461 =? 24) || (n0 / 36524 =? 3))).
  assert (Hn : 0 <= n < 365) by (apply Z.mod_pos_bound; lia).
  rewrite Z.shiftr_div_pow2 by lia. change (2 ^ 5) with 32.
  set (m := (n + 50) / 32).
  assert (Hm : 32 * m <= n + 50 < 32 * m + 32).
  { unfold m. pose proof (Z.div_mod (n + 50) 32 ltac:(lia)).
    pose proof (Z.mod_pos_bound (n + 50) 32 ltac:(lia)). lia. }
  assert (Hcases : m = 1 \/ m = 2 \/ m = 3 \/ m = 4 \/ m = 5 \/ m = 6 \/ m = 7
                   \/ m = 8 \/ m = 9 \/ m = 10 \/ m = 11 \/ m = 12) by lia.
  clearbody m n leapyear.
  repeat destruct Hcases as [->|Hcases]; try subst m;
    unfold Datetime.table; simpl;
    destruct leapyear; simpl;
    match goal with |- context [?a <? ?b] => destruct (Z.ltb_spec a b) end; lia.
Qed.

Lemma fromtimestamp_before_max offset seconds timestamp :
  Datetime.fromtimestamp offset seconds = Ok timestamp ->
  Datetime.lt timestamp Datetime.max = true.
Proof.
  unfold Datetime.fromtimestamp.
  destruct ((seconds <? - 2 ^ 63) || (2 ^ 63 <=? seconds)); [discriminate|].
  cbv zeta.
  pose proof (ord2ymd_bounds (Datetime.EPOCH_ORDINAL + (seconds + offset seconds) / 86400))
    as Hymd.
  destruct (Datetime.ord2ymd _) as [[y m] d]. destruct Hymd as [Hm Hd].
  destruct (Z.ltb_spec y 1); [discriminate|].
  destruct (Z.ltb_spec 9999 y); [discriminate|]. simpl.
  intros [= <-].
  set (s := (seconds + offset seconds) mod 86400).
  assert (Hs : 0 <= s < 86400) by (apply Z.mod_pos_bound; lia).
  assert (Hh : s / 3600 <= 23) by (apply Z.lt_succ_r, Z.div_lt_upper_bound; lia).
  assert (Hmin : s mod 3600 / 60 <= 59).
  { pose proof (Z.mod_pos_bound s 3600 ltac:(lia)).
    apply Z.lt_succ_r, Z.div_lt_upper_bound; lia. }
  assert (Hsec : s mod 60 <= 59) by (pose proof (Z.mod_pos_bound s 60 ltac:(lia)); lia).
  unfold Datetime.lt, Datetime.max, Datetime.fields. simpl.
  repeat match goal with
         | |- context [?a <? ?b] => destruct (Z.ltb_spec a b); try reflexivity; try lia
         end.
Qed.

Lemma zsh_lines_before_max e lines :
  Forall before_max (fst (_parse_zsh_lines e lines)).
Proof.
  induction lines as [|line rest IH]; simpl; [constructor|].
  destruct (startswith ":" line); [|exact IH].
  destruct (3 <=? Z.of_nat (length (str_split_on ";" line))); [|exact IH].
  destruct (bind _ _) as [timestamp|ex] eqn:Hbind; simpl; [|constructor].
  constructor; [|exact IH]. unfold before_max. simpl.
  destruct (getitem _ 1) as [field|]; simpl in Hbind; [|discriminate].
  destruct (int field) as [seconds|]; simpl in Hbind; [|discriminate].
  eapply fromtimestamp_before_max, Hbind.
Qed.

End Sentinel.

(** X22.  A timestamp read by the zsh parser has no microseconds and a
    year of at most 9999, so it is strictly earlier than the sentinel
    [datetime.max].  Hence, on a zsh history, [first_command] is set as
    soon as one record is counted, and it is the text of the earliest
    counted record (the first one in the file among equally early
    ones). *)
Theorem zsh_first_command_is_earliest (e : env) (y : option Z) (lines : list string) :
  let records := fst (_parse_zsh_lines e lines) in
  let self := fst (init e y) in
  Forall before_max records
  /\ holds_earliest (command_data (fst (analyze_records self records)))
       (List.filter (counted (year self)) records).
Proof.
  intros records self.
  assert (Hmax : Forall before_max records) by apply zsh_lines_before_max.
  split; [exact Hmax|].
  apply (analyze_records_earliest records self []); [|apply init_earliest].
  clear -Hmax. induction Hmax as [|r rest Hr _ IH]; simpl; [constructor|].
  destruct (counted (year self) r); [constructor|]; assumption.
Qed.

(** ** When a run succeeds *)

Section Success.





End Success.




